(** * ZeroTier identities: a shallow embedding of [identity.go]

    The development follows the Go package [ztidentity]:
    - the memory-hard hash [computeZeroTierIdentityMemoryHardHash],
    - the dual key generator [generateDualPair],
    - the mining loop [NewZeroTierIdentity],
    - the string encoders [PublicKeyString], [PrivateKeyString], [IDString].

    Library functions of Go that the package calls (SHA-512, Salsa20,
    Ed25519, Curve25519) are variables of the sections below; the random
    source [crypto/rand.Reader] is an explicit state. *)

From Stdlib Require Import ZArith List Lia Bool String Ascii Strings.Byte.
From stdpp Require Import base option list gmap strings.

Open Scope Z_scope.

(** ** Bytes *)

Abbreviation byte := Byte.byte.

Definition byte_to_Z (b : byte) : Z := Z.of_N (Byte.to_N b).

(** Go's conversion [byte(v)] of an unsigned integer keeps the low 8 bits. *)
Definition byte_of_Z (v : Z) : byte :=
  match Byte.of_N (Z.to_N (Z.land v 255)) with
  | Some b => b
  | None => x00
  end.

Definition zeros (n : nat) : list byte := replicate n x00.

(** ** Panics and results

    A Go call either returns, or panics with a value.  [OutOfFuel] is the
    model's own third outcome: a loop that was given too little fuel. *)

Inductive RuntimeError : Set :=
| SliceBoundsOutOfRange
| IndexOutOfRange.

Inductive PanicValue : Set :=
| NotEnoughEntropy                         (* panic(fmt.Sprintf("Not enough entropy: %v", err)) *)
| GoRuntimeError (e : RuntimeError).

Inductive Result (A : Type) : Type :=
| Ok (a : A)
| Panic (p : PanicValue)
| OutOfFuel.

Arguments Ok {A} a.
Arguments Panic {A} p.
Arguments OutOfFuel {A}.

Definition bind {A B : Type} (m : Result A) (k : A -> Result B) : Result B :=
  match m with
  | Ok a => k a
  | Panic p => Panic p
  | OutOfFuel => OutOfFuel
  end.

#[export] Instance Result_bind : MBind Result := fun A B k m => bind m k.
#[export] Instance Result_ret : MRet Result := fun A a => Ok a.

(** ** Unsigned 64-bit arithmetic *)

(** A [uint64] keeps the low 64 bits of every result. *)
Definition wrap64 (v : Z) : Z := Z.land v (Z.ones 64).

(** ** Slices of small arrays, as lists *)

Definition bounds_ok (lo hi cap : Z) : bool :=
  (0 <=? lo) && (lo <=? hi) && (hi <=? cap).

(** [a[lo:hi]]: panics unless [0 <= lo <= hi <= cap(a)]. *)
Definition slice (a : list byte) (lo hi : Z) : Result (list byte) :=
  if bounds_ok lo hi (Z.of_nat (length a))
  then Ok (take (Z.to_nat (hi - lo)) (drop (Z.to_nat lo) a))
  else Panic (GoRuntimeError SliceBoundsOutOfRange).

(** [copy(a[lo:hi], src)]: copies [min (hi - lo) (len src)] bytes. *)
Definition copy_to (a : list byte) (lo hi : Z) (src : list byte) : Result (list byte) :=
  if bounds_ok lo hi (Z.of_nat (length a))
  then
    let n := Nat.min (Z.to_nat (hi - lo)) (length src) in
    Ok (take (Z.to_nat lo) a ++ take n src ++ drop (Z.to_nat lo + n) a)
  else Panic (GoRuntimeError SliceBoundsOutOfRange).

(** [a[i]] *)
Definition index (a : list byte) (i : Z) : Result byte :=
  if (0 <=? i) && (i <? Z.of_nat (length a))
  then match a !! Z.to_nat i with
       | Some b => Ok b
       | None => Panic (GoRuntimeError IndexOutOfRange)
       end
  else Panic (GoRuntimeError IndexOutOfRange).

(** ** encoding/binary *)

(** [binary.BigEndian.Uint64(b)]: the bounds-check hint [_ = b[7]] panics on
    a slice shorter than 8 bytes; only the first 8 bytes are read. *)
Definition be_uint64 (b : list byte) : Z :=
  match b with
  | b0 :: b1 :: b2 :: b3 :: b4 :: b5 :: b6 :: b7 :: _ =>
      Z.lor (byte_to_Z b7)
     (Z.lor (Z.shiftl (byte_to_Z b6) 8)
     (Z.lor (Z.shiftl (byte_to_Z b5) 16)
     (Z.lor (Z.shiftl (byte_to_Z b4) 24)
     (Z.lor (Z.shiftl (byte_to_Z b3) 32)
     (Z.lor (Z.shiftl (byte_to_Z b2) 40)
     (Z.lor (Z.shiftl (byte_to_Z b1) 48)
            (Z.shiftl (byte_to_Z b0) 56)))))))
  | _ => 0
  end.

(** [binary.LittleEndian.PutUint64(b, v)] writes these 8 bytes. *)
Definition le_bytes64 (v : Z) : list byte :=
  [ byte_of_Z v; byte_of_Z (Z.shiftr v 8); byte_of_Z (Z.shiftr v 16);
    byte_of_Z (Z.shiftr v 24); byte_of_Z (Z.shiftr v 32); byte_of_Z (Z.shiftr v 40);
    byte_of_Z (Z.shiftr v 48); byte_of_Z (Z.shiftr v 56) ].

(** [binary.LittleEndian.PutUint64(a[lo:hi], v)] *)
Definition PutUint64_le (a : list byte) (lo hi : Z) (v : Z) : Result (list byte) :=
  if bounds_ok lo hi (Z.of_nat (length a))
  then if hi - lo <? 8
       then Panic (GoRuntimeError IndexOutOfRange)
       else copy_to a lo (lo + 8) (le_bytes64 v)
  else Panic (GoRuntimeError SliceBoundsOutOfRange).

(** ** The working buffer

    [var genmem [ztIdentityGenMemory]byte] is a zero-initialised array of
    fixed length: a finite map from offsets to bytes in which an offset that
    was never written reads as zero, and every slice expression is checked
    against the constant length. *)

Definition ztIdentityGenMemory : Z := 2097152.
Definition ztIdentityHashCashFirstByteLessThan : Z := 17.

Definition buf_get (g : gmap Z byte) (i : Z) : byte := default x00 (g !! i).

Fixpoint buf_read (g : gmap Z byte) (off : Z) (n : nat) : list byte :=
  match n with
  | O => []
  | S n' => buf_get g off :: buf_read g (off + 1) n'
  end.

Fixpoint buf_write (g : gmap Z byte) (off : Z) (src : list byte) : gmap Z byte :=
  match src with
  | [] => g
  | b :: src' => buf_write (<[off := b]> g) (off + 1) src'
  end.

(** A slice [genmem[lo:hi]] is a window (offset, length) on the buffer. *)
Definition genmem_slice (lo hi : Z) : Result (Z * Z) :=
  if bounds_ok lo hi ztIdentityGenMemory
  then Ok (lo, hi - lo)
  else Panic (GoRuntimeError SliceBoundsOutOfRange).

(** [binary.BigEndian.Uint64(genmem[lo:])] *)
Definition genmem_be_uint64 (g : gmap Z byte) (lo : Z) : Result Z :=
  '(off, len) ← genmem_slice lo ztIdentityGenMemory;
  if len <? 8 then Panic (GoRuntimeError IndexOutOfRange)
  else Ok (be_uint64 (buf_read g off 8)).

(** ** The memory-hard hash *)

Record HashState : Type := mkHashState {
  s512 : list byte;          (* [64]byte, the SHA-512 seed and later the digest *)
  genmem : gmap Z byte;      (* [ztIdentityGenMemory]byte *)
  s20key : list byte;        (* [32]byte *)
  s20ctr : list byte;        (* [16]byte: nonce, then block counter *)
  s20ctri : Z                (* uint64 *)
}.

(** ** The random source

    [crypto/rand.Reader] is an [io.Reader]: every read either supplies bytes
    or returns an error.  A reader is the script of what its successive reads
    will do; a reader that has run out answers every read with an error. *)

Inductive ReadOutcome : Type :=
| Supplied (bs : list byte)
| ReadFails.

Definition Reader : Type := list ReadOutcome.

(** [io.ReadFull(r, buf)] with [len(buf) = n]: exactly [n] bytes, or an error
    (a short read is [io.ErrUnexpectedEOF]). *)
Definition io_ReadFull (r : Reader) (n : nat) : option (list byte) * Reader :=
  match r with
  | [] => (None, [])
  | Supplied bs :: r' => if (length bs =? n)%nat then (Some bs, r') else (None, r')
  | ReadFails :: r' => (None, r')
  end.

(** ** The identity *)

Record ZeroTierIdentity : Type := mkZeroTierIdentity {
  address : Z;                      (* uint64, only the low 40 bits are used *)
  publicKey : list byte;            (* [64]byte *)
  privateKey : option (list byte)   (* *[64]byte, nil when not set *)
}.

Section Model.

(** [sha512.Sum512 : []byte -> [64]byte] *)
Variable Sum512 : list byte -> list byte.
(** [salsa.XORKeyStream(out, in, &counter, &key)]: the bytes written to
    [out[:len(in)]], as a function of [in], [counter] and [key]. *)
Variable XORKeyStream : list byte -> list byte -> list byte -> list byte.
(** The Ed25519 public key of a 32-byte seed. *)
Variable ed25519_public : list byte -> list byte.
(** [curve25519.ScalarBaseMult(&dst, &scalar)]: the bytes written to [dst]. *)
Variable curve25519_ScalarBaseMult : list byte -> list byte.

(** Lines 47-56: seed, key, nonce, and the first block. *)
Definition hash_init (publicKey : list byte) : Result HashState :=
  let s512 := Sum512 publicKey in
  let genmem : gmap Z byte := ∅ in
  let s20ctri := 0 in
  k ← slice s512 0 32;
  s20key ← copy_to (zeros 32) 0 32 k;
  n ← slice s512 32 40;
  s20ctr ← copy_to (zeros 16) 0 8 n;
  '(out, _) ← genmem_slice 0 64;
  '(inp, len) ← genmem_slice 0 64;
  let genmem :=
    buf_write genmem out (XORKeyStream (buf_read genmem inp (Z.to_nat len)) s20ctr s20key) in
  let s20ctri := wrap64 (s20ctri + 1) in
  Ok (mkHashState s512 genmem s20key s20ctr s20ctri).

(** Lines 58-60: the body of the fill loop. *)
Definition fill_body (i : Z) (st : HashState) : Result HashState :=
  s20ctr ← PutUint64_le (s20ctr st) 8 16 (s20ctri st);
  '(out, _) ← genmem_slice i (i + 64);
  '(inp, len) ← genmem_slice (i - 64) i;
  let genmem :=
    buf_write (genmem st) out
      (XORKeyStream (buf_read (genmem st) inp (Z.to_nat len)) s20ctr (s20key st)) in
  Ok (mkHashState (s512 st) genmem (s20key st) s20ctr (wrap64 (s20ctri st + 1))).

(** Line 57: [for i := 64; i < ztIdentityGenMemory; i += 64]. *)
Fixpoint fill_loop (fuel : nat) (i : Z) (st : HashState) : Result HashState :=
  if i <? ztIdentityGenMemory then
    match fuel with
    | O => OutOfFuel
    | S fuel' => st' ← fill_body i st; fill_loop fuel' (i + 64) st'
    end
  else Ok st.

(** Lines 65-68: the two offsets of one mixing iteration, and the loop
    variable after its two increments.  [uint] is taken as 64 bits wide. *)
Definition mix_select (i : Z) (st : HashState) : Result (Z * Z * Z) :=
  v1 ← genmem_be_uint64 (genmem st) i;
  let idx1 := wrap64 (Z.land v1 7 * 8) in
  let i := i + 8 in
  v2 ← genmem_be_uint64 (genmem st) i;
  let idx2 := wrap64 (wrap64 v2 mod (ztIdentityGenMemory / 8) * 8) in
  let i := i + 8 in
  Ok (idx1, idx2, i).

(** Lines 69-76: swap through [tmp], then re-encrypt the seed. *)
Definition mix_swap (idx1 idx2 : Z) (st : HashState) : Result HashState :=
  '(gm, gmlen) ← genmem_slice idx2 (wrap64 (idx2 + 8));
  d ← slice (s512 st) idx1 (wrap64 (idx1 + 8));
  tmp ← copy_to (zeros 8) 0 8 (buf_read (genmem st) gm (Z.to_nat gmlen));
  let genmem := buf_write (genmem st) gm (take (Z.to_nat gmlen) d) in
  s512 ← copy_to (s512 st) idx1 (wrap64 (idx1 + 8)) tmp;
  s20ctr ← PutUint64_le (s20ctr st) 8 16 (s20ctri st);
  let s512 := XORKeyStream s512 s20ctr (s20key st) in
  Ok (mkHashState s512 genmem (s20key st) s20ctr (wrap64 (s20ctri st + 1))).

Definition mix_body (i : Z) (st : HashState) : Result (Z * HashState) :=
  '(idx1, idx2, i') ← mix_select i st;
  st' ← mix_swap idx1 idx2 st;
  Ok (i', st').

(** Line 64: [for i := 0; i < ztIdentityGenMemory; { ... }]. *)
Fixpoint mix_loop (fuel : nat) (i : Z) (st : HashState) : Result HashState :=
  if i <? ztIdentityGenMemory then
    match fuel with
    | O => OutOfFuel
    | S fuel' => '(i', st') ← mix_body i st; mix_loop fuel' i' st'
    end
  else Ok st.

(** The loop variable and the state at the head of the iterations of the
    mixing loop that starts in [st0]. *)
Inductive mix_iter (st0 : HashState) : Z -> HashState -> Prop :=
| mix_iter_first : mix_iter st0 0 st0
| mix_iter_next (i : Z) (st : HashState) (i' : Z) (st' : HashState) :
    mix_iter st0 i st ->
    i < ztIdentityGenMemory ->
    mix_body i st = Ok (i', st') ->
    mix_iter st0 i' st'.

Definition fill_phase (fuel : nat) (publicKey : list byte) : Result HashState :=
  st ← hash_init publicKey;
  fill_loop fuel 64 st.

Definition hash_run (fuel : nat) (publicKey : list byte) : Result HashState :=
  st ← fill_phase fuel publicKey;
  mix_loop fuel 0 st.

Definition memoryHardHash_fuel (fuel : nat) (publicKey : list byte) : Result (list byte) :=
  st ← hash_run fuel publicKey;
  Ok (s512 st).

(** Both loops are bounded by the buffer length; this much fuel is more
    than either takes. *)
Definition hash_fuel : nat := Z.to_nat (ztIdentityGenMemory / 16).

Definition computeZeroTierIdentityMemoryHardHash (publicKey : list byte)
  : Result (list byte) :=
  memoryHardHash_fuel hash_fuel publicKey.

(** [ed25519.GenerateKey(rand)]: reads a 32-byte seed; on a read error it
    returns [nil, nil, err].  The private key is the seed followed by the
    public key. *)
Definition ed25519_GenerateKey (r : Reader)
  : option (list byte * list byte) * Reader :=
  match io_ReadFull r 32 with
  | (Some seed, r') => (Some (ed25519_public seed, seed ++ ed25519_public seed), r')
  | (None, r') => (None, r')
  end.

(** Lines 83-96.  The error of [ed25519.GenerateKey] is dropped ([_]), so
    after a failed read [k0pub] and [k0priv] are nil slices. *)
Definition generateDualPair (r : Reader)
  : Result (list byte * list byte * Reader) :=
  let '(k0, r) := ed25519_GenerateKey r in
  let k0pub := from_option fst [] k0 in
  let k0priv := from_option snd [] k0 in
  let '(rd, r) := io_ReadFull r 32 in
  match rd with
  | None => Panic NotEnoughEntropy
  | Some k1priv =>
      let k1pub := curve25519_ScalarBaseMult k1priv in
      pub ← copy_to (zeros 64) 0 32 k1pub;
      s ← slice k0pub 0 32;
      pub ← copy_to pub 32 64 s;
      priv ← copy_to (zeros 64) 0 32 k1priv;
      s ← slice k0priv 0 32;
      priv ← copy_to priv 32 64 s;
      Ok (pub, priv, r)
  end.

(** Lines 112-120: five digest bytes shifted into a [uint64]. *)
Definition address_of (d59 d60 d61 d62 d63 : byte) : Z :=
  let a := byte_to_Z d59 in
  let a := wrap64 (Z.shiftl a 8) in
  let a := Z.lor a (byte_to_Z d60) in
  let a := wrap64 (Z.shiftl a 8) in
  let a := Z.lor a (byte_to_Z d61) in
  let a := wrap64 (Z.shiftl a 8) in
  let a := Z.lor a (byte_to_Z d62) in
  let a := wrap64 (Z.shiftl a 8) in
  let a := Z.lor a (byte_to_Z d63) in
  a.

(** Lines 107-129: [for { ... }], one unit of fuel per attempt. *)
Fixpoint NewZeroTierIdentity (fuel : nat) (r : Reader)
  : Result (ZeroTierIdentity * Reader) :=
  match fuel with
  | O => OutOfFuel
  | S fuel' =>
      '(pub, priv, r) ← generateDualPair r;
      dig ← computeZeroTierIdentityMemoryHardHash pub;
      d0 ← index dig 0;
      if byte_to_Z d0 <? ztIdentityHashCashFirstByteLessThan then
        d59 ← index dig 59;
        if negb (byte_to_Z d59 =? 255) then
          d60 ← index dig 60;
          d61 ← index dig 61;
          d62 ← index dig 62;
          d63 ← index dig 63;
          let address := address_of d59 d60 d61 d62 d63 in
          if negb (address =? 0)
          then Ok (mkZeroTierIdentity address pub (Some priv), r)
          else NewZeroTierIdentity fuel' r
        else NewZeroTierIdentity fuel' r
      else NewZeroTierIdentity fuel' r
  end.

End Model.

(** ** Formatting ([fmt.Sprintf])

    The two verbs the package uses: [%.10x] on a [uint64] and [%x] on a byte
    array. *)

Definition ldigits : string := "0123456789abcdef".

Definition digit_char (d : Z) : ascii :=
  match String.get (Z.to_nat d) ldigits with
  | Some c => c
  | None => "?"%char
  end.

(** The digit loop of [fmtInteger] for base 16: digits are produced from the
    least significant one, in front of [buf].  A [uint64] has at most 16. *)
Fixpoint fmt_hex_digits (fuel : nat) (u : Z) (buf : string) : string :=
  match fuel with
  | O => buf
  | S fuel' =>
      if 16 <=? u
      then fmt_hex_digits fuel' (Z.shiftr u 4) (String (digit_char (Z.land u 15)) buf)
      else String (digit_char u) buf
  end.

(** [for i > 0 && prec > len(buf)-i { i--; buf[i] = '0' }] *)
Fixpoint pad_zeros (n : nat) (buf : string) : string :=
  match n with
  | O => buf
  | S n' => String "0"%char (pad_zeros n' buf)
  end.

(** [%.<prec>x] on an unsigned integer. *)
Definition fmt_x_prec (prec : nat) (u : Z) : string :=
  if (prec =? 0)%nat && (u =? 0) then ""%string
  else
    let buf := fmt_hex_digits 16 u "" in
    pad_zeros (prec - String.length buf) buf.

(** [%x] on a byte array: two digits per byte ([fmtSbx]). *)
Fixpoint fmt_x_bytes (bs : list byte) : string :=
  match bs with
  | [] => ""%string
  | c :: bs' =>
      String (digit_char (Z.shiftr (byte_to_Z c) 4))
        (String (digit_char (Z.land (byte_to_Z c) 15)) (fmt_x_bytes bs'))
  end.

(** ** The methods of [ZeroTierIdentity] *)

(** [fmt.Sprintf("%.10x:0:%x:%x", id.address, id.publicKey, *id.privateKey)] *)
Definition PrivateKeyString (id : ZeroTierIdentity) : string :=
  match privateKey id with
  | Some priv =>
      fmt_x_prec 10 (address id) +:+ ":0:" +:+ fmt_x_bytes (publicKey id)
        +:+ ":" +:+ fmt_x_bytes priv
  | None => ""
  end.

(** [fmt.Sprintf("%.10x:0:%x", id.address, id.publicKey)] *)
Definition PublicKeyString (id : ZeroTierIdentity) : string :=
  fmt_x_prec 10 (address id) +:+ ":0:" +:+ fmt_x_bytes (publicKey id).

(** [fmt.Sprintf("%.10x", id.address)] *)
Definition IDString (id : ZeroTierIdentity) : string :=
  fmt_x_prec 10 (address id).

Definition ID (id : ZeroTierIdentity) : Z := address id.
Definition PrivateKey (id : ZeroTierIdentity) : option (list byte) := privateKey id.
Definition PublicKey (id : ZeroTierIdentity) : list byte := publicKey id.

(** ** Vocabulary of the properties *)

(** The arrays of a hash state have the lengths of their Go types. *)
Definition wf_state (st : HashState) : Prop :=
  length (s512 st) = 64%nat /\ length (s20key st) = 32%nat /\ length (s20ctr st) = 16%nat.

(** The [k]-th 64-byte block of the working buffer. *)
Definition block (g : gmap Z byte) (k : Z) : list byte := buf_read g (64 * k) 64.

(** The 16 raw counter bytes of keystream block [k]: the 8-byte nonce, then
    [k] as a little-endian 64-bit integer. *)
Definition counter_block (nonce : list byte) (k : Z) : list byte :=
  nonce ++ le_bytes64 k.

(** The key and the nonce the hash derives from the seed of [pk]. *)
Definition key_of (Sum512 : list byte -> list byte) (pk : list byte) : list byte :=
  take 32 (Sum512 pk).

Definition nonce_of (Sum512 : list byte -> list byte) (pk : list byte) : list byte :=
  take 8 (drop 32 (Sum512 pk)).

(** What holds at the head of the fill loop when [j] blocks are written. *)
Definition fill_inv
  (Sum512 : list byte -> list byte)
  (XORKeyStream : list byte -> list byte -> list byte -> list byte)
  (pk : list byte) (j : Z) (st : HashState) : Prop :=
  wf_state st /\
  s512 st = Sum512 pk /\
  s20key st = key_of Sum512 pk /\
  take 8 (s20ctr st) = nonce_of Sum512 pk /\
  s20ctri st = j /\
  block (genmem st) 0
    = XORKeyStream (zeros 64) (counter_block (nonce_of Sum512 pk) 0) (key_of Sum512 pk) /\
  forall k, 1 <= k < j ->
    block (genmem st) k
    = XORKeyStream (block (genmem st) (k - 1))
        (counter_block (nonce_of Sum512 pk) k) (key_of Sum512 pk).

(** The big-endian unsigned integer spelled by a list of bytes. *)
Definition be_uint (bs : list byte) : Z :=
  fold_left (fun acc b => 256 * acc + byte_to_Z b) bs 0.

(** The selection of the two offsets as the specification words it: both
    integers are read from the 64-byte seed, at the loop variable wrapped
    into the seed. *)
Definition spec_mix_select (i : Z) (st : HashState) : Z * Z :=
  let v1 := be_uint64 (take 8 (drop (Z.to_nat (i mod 64)) (s512 st))) in
  let v2 := be_uint64 (take 8 (drop (Z.to_nat ((i + 8) mod 64)) (s512 st))) in
  (Z.land v1 7 * 8, v2 mod (ztIdentityGenMemory / 8) * 8).

(** [n] hexadecimal digits of [v], most significant first, zero-padded. *)
Fixpoint hex_fixed (n : nat) (v : Z) : string :=
  match n with
  | O => ""
  | S n' => hex_fixed n' (v / 16) +:+ String (digit_char (v mod 16)) ""
  end.

Definition is_lower_hex (c : ascii) : bool :=
  let n := Z.of_nat (nat_of_ascii c) in
  ((48 <=? n) && (n <=? 57)) || ((97 <=? n) && (n <=? 102)).

Fixpoint all_lower_hex (s : string) : bool :=
  match s with
  | EmptyString => true
  | String c s' => is_lower_hex c && all_lower_hex s'
  end.

Definition hex_digit_value (c : ascii) : Z :=
  let n := Z.of_nat (nat_of_ascii c) in
  if n <=? 57 then n - 48 else n - 87.

(** The number a string of hexadecimal digits spells. *)
Definition hex_value (s : string) : Z :=
  fold_left (fun acc c => 16 * acc + hex_digit_value c) (list_ascii_of_string s) 0.

(** The bytes a string of hexadecimal digits spells, two digits per byte. *)
Fixpoint hex_bytes (s : string) : list Z :=
  match s with
  | String h (String l s') => (16 * hex_digit_value h + hex_digit_value l) :: hex_bytes s'
  | _ => []
  end.

(** Byte [k] of a digest, and the two tests and the address the mining
    loop takes from a 64-byte digest (lines 111-121). *)
Definition digest_byte (dig : list byte) (k : nat) : byte := default x00 (dig !! k).

Definition digest_address (dig : list byte) : Z :=
  address_of (digest_byte dig 59) (digest_byte dig 60) (digest_byte dig 61)
    (digest_byte dig 62) (digest_byte dig 63).

Definition qualifies (dig : list byte) : bool :=
  (byte_to_Z (digest_byte dig 0) <? ztIdentityHashCashFirstByteLessThan)
  && negb (byte_to_Z (digest_byte dig 59) =? 255)
  && negb (digest_address dig =? 0).

(** A read that supplies the 32 bytes asked for, and the bytes of a read. *)
Definition supplies32 (o : ReadOutcome) : bool :=
  match o with
  | Supplied bs => (length bs =? 32)%nat
  | ReadFails => false
  end.

Definition supplied_bytes (o : ReadOutcome) : list byte :=
  match o with
  | Supplied bs => bs
  | ReadFails => []
  end.

(** ** A concrete interpretation of the library functions

    The SHA-512, Salsa20, Ed25519 and Curve25519 functions are not part of
    the package.  To run the model on concrete inputs they are interpreted
    by the small functions below, which have the same shapes: a 64-byte
    digest, an output as long as the input, 32-byte keys. *)

Module Stub.

Definition byte_xor (a b : byte) : byte :=
  byte_of_Z (Z.lxor (byte_to_Z a) (byte_to_Z b)).

Fixpoint stream (k : Z) (inp : list byte) : list byte :=
  match inp with
  | [] => []
  | b :: inp' => byte_xor b (byte_of_Z k) :: stream (k + 7) inp'
  end.

Definition absorb (l : list byte) : Z :=
  fold_left (fun acc b => Z.land (3 * acc + byte_to_Z b) 65535) l 0.

Definition Sum512 (d : list byte) : list byte :=
  stream (absorb d) (zeros 64).

Definition XORKeyStream (inp ctr key : list byte) : list byte :=
  stream (absorb (take 1 key ++ take 10 ctr)) inp.

Definition ed25519_public (seed : list byte) : list byte :=
  take 32 (stream 3 seed ++ zeros 32).

Definition ScalarBaseMult (scalar : list byte) : list byte :=
  take 32 (stream 9 scalar ++ zeros 32).

(** A cipher whose keystream is all zeros: the output is the input. *)
Definition null_XORKeyStream (inp ctr key : list byte) : list byte := inp.

(** A run of the mining loop: the random source supplies an all-zero
    Ed25519 seed and a Curve25519 scalar of 31 zero bytes and 0x61. *)
Definition example_seed : list byte := zeros 32.
Definition example_scalar : list byte := zeros 31 ++ ["a"%byte].
Definition example_reader : Reader := [Supplied example_seed; Supplied example_scalar].
Definition example_identity : ZeroTierIdentity :=
  mkZeroTierIdentity 0x9ea5acb3ba
    (ScalarBaseMult example_scalar ++ ed25519_public example_seed)
    (Some (example_scalar ++ example_seed)).

(** The same run after a first attempt on all-zero randomness. *)
Definition example_retry_reader : Reader :=
  Supplied (zeros 32) :: Supplied (zeros 32) :: example_reader.

End Stub.

(** * Properties *)

(** ** Bytes and machine integers *)

Lemma byte_to_Z_range (b : byte) : 0 <= byte_to_Z b < 256.
Proof.
  unfold byte_to_Z. pose proof (Byte.to_N_bounded b) as H. lia.
Qed.

Lemma wrap64_small (v : Z) : 0 <= v < 2 ^ 64 -> wrap64 v = v.
Proof.
  intros H. unfold wrap64. rewrite Z.land_ones by lia. apply Z.mod_small. lia.
Qed.

Lemma wrap64_range (v : Z) : 0 <= wrap64 v < 2 ^ 64.
Proof.
  unfold wrap64. rewrite Z.land_ones by lia. apply Z.mod_pos_bound. lia.
Qed.

Lemma genmem_value : ztIdentityGenMemory = 2097152.
Proof. reflexivity. Qed.

Lemma genmem_div8 : ztIdentityGenMemory / 8 = 262144.
Proof. reflexivity. Qed.

Lemma hash_fuel_value : Z.of_nat hash_fuel = 131072.
Proof. unfold hash_fuel. rewrite Z2Nat.id; [reflexivity | now compute]. Qed.

(** ** Slices *)

Lemma bounds_ok_true (lo hi cap : Z) :
  0 <= lo -> lo <= hi -> hi <= cap -> bounds_ok lo hi cap = true.
Proof.
  intros. unfold bounds_ok.
  rewrite !andb_true_iff. repeat split; apply Z.leb_le; lia.
Qed.

Lemma bounds_ok_inv (lo hi cap : Z) :
  bounds_ok lo hi cap = true -> 0 <= lo /\ lo <= hi /\ hi <= cap.
Proof.
  unfold bounds_ok. rewrite !andb_true_iff, !Z.leb_le. tauto.
Qed.

Lemma slice_ok (a : list byte) (lo hi : Z) :
  0 <= lo -> lo <= hi -> hi <= Z.of_nat (length a) ->
  slice a lo hi = Ok (take (Z.to_nat (hi - lo)) (drop (Z.to_nat lo) a)).
Proof.
  intros. unfold slice. now rewrite bounds_ok_true.
Qed.

Lemma slice_length (a s : list byte) (lo hi : Z) :
  slice a lo hi = Ok s -> Z.of_nat (length s) = hi - lo.
Proof.
  unfold slice. destruct (bounds_ok lo hi _) eqn:E; [|discriminate].
  apply bounds_ok_inv in E. intros [= <-].
  rewrite length_take, length_drop. lia.
Qed.

Lemma copy_to_ok (a src : list byte) (lo hi : Z) :
  0 <= lo -> lo <= hi -> hi <= Z.of_nat (length a) ->
  copy_to a lo hi src =
    Ok (take (Z.to_nat lo) a
        ++ take (Nat.min (Z.to_nat (hi - lo)) (length src)) src
        ++ drop (Z.to_nat lo + Nat.min (Z.to_nat (hi - lo)) (length src)) a).
Proof.
  intros. unfold copy_to. now rewrite bounds_ok_true.
Qed.

Lemma copy_to_length (a src r : list byte) (lo hi : Z) :
  copy_to a lo hi src = Ok r -> length r = length a.
Proof.
  unfold copy_to. destruct (bounds_ok lo hi _) eqn:E; [|discriminate].
  apply bounds_ok_inv in E. intros [= <-].
  rewrite !length_app, !length_take, length_drop. lia.
Qed.

(** Copying as many bytes as the window holds replaces the window. *)
Lemma copy_to_exact (a src : list byte) (lo hi : Z) :
  0 <= lo -> lo <= hi -> hi <= Z.of_nat (length a) ->
  Z.of_nat (length src) = hi - lo ->
  copy_to a lo hi src
  = Ok (take (Z.to_nat lo) a ++ src ++ drop (Z.to_nat hi) a).
Proof.
  intros Hlo Hhi Hcap Hlen. rewrite copy_to_ok by lia.
  replace (Nat.min (Z.to_nat (hi - lo)) (length src)) with (length src) by lia.
  rewrite firstn_all.
  replace (Z.to_nat lo + length src)%nat with (Z.to_nat hi) by lia.
  reflexivity.
Qed.

Lemma le_bytes64_length (v : Z) : length (le_bytes64 v) = 8%nat.
Proof. reflexivity. Qed.

Lemma PutUint64_le_counter (ctr : list byte) (v : Z) :
  length ctr = 16%nat ->
  PutUint64_le ctr 8 16 v = Ok (take 8 ctr ++ le_bytes64 v).
Proof.
  intros Hlen. unfold PutUint64_le.
  rewrite bounds_ok_true by lia.
  change (16 - 8 <? 8) with false. cbv iota.
  rewrite copy_to_exact by (rewrite ?le_bytes64_length; lia).
  change (Z.to_nat 8) with 8%nat. change (Z.to_nat (8 + 8)) with 16%nat.
  rewrite (drop_ge ctr 16) by lia. now rewrite app_nil_r.
Qed.

Lemma index_ok (a : list byte) (i : Z) (b : byte) :
  index a i = Ok b -> 0 <= i < Z.of_nat (length a) /\ a !! Z.to_nat i = Some b.
Proof.
  unfold index.
  destruct ((0 <=? i) && (i <? Z.of_nat (length a))) eqn:E; [|discriminate].
  apply andb_true_iff in E as [H1 H2].
  apply Z.leb_le in H1. apply Z.ltb_lt in H2.
  destruct (a !! Z.to_nat i) eqn:El; [|discriminate].
  intros [= ->]. auto.
Qed.

(** ** The working buffer *)

Lemma buf_read_length (g : gmap Z byte) (off : Z) (n : nat) :
  length (buf_read g off n) = n.
Proof.
  revert off. induction n as [|n IH]; intros off; simpl; [reflexivity|].
  now rewrite IH.
Qed.

Lemma buf_read_lookup (g : gmap Z byte) (off : Z) (n k : nat) :
  (k < n)%nat -> buf_read g off n !! k = Some (buf_get g (off + Z.of_nat k)).
Proof.
  revert off k. induction n as [|n IH]; intros off k Hk; [lia|].
  destruct k as [|k]; simpl.
  - now rewrite Z.add_0_r.
  - rewrite IH by lia. do 2 f_equal. lia.
Qed.

Lemma buf_read_ext (g g' : gmap Z byte) (off : Z) (n : nat) :
  (forall i, off <= i < off + Z.of_nat n -> buf_get g i = buf_get g' i) ->
  buf_read g off n = buf_read g' off n.
Proof.
  revert off. induction n as [|n IH]; intros off H; simpl; [reflexivity|].
  rewrite H by lia. f_equal. apply IH. intros i Hi. apply H. lia.
Qed.

Lemma buf_get_write_outside (g : gmap Z byte) (off : Z) (src : list byte) (i : Z) :
  i < off \/ off + Z.of_nat (length src) <= i ->
  buf_get (buf_write g off src) i = buf_get g i.
Proof.
  revert g off. induction src as [|b src IH]; intros g off H; simpl; [reflexivity|].
  rewrite IH by (simpl in H; lia).
  unfold buf_get. rewrite lookup_insert_ne; [reflexivity|]. simpl in H. lia.
Qed.

Lemma buf_get_write_inside (g : gmap Z byte) (off : Z) (src : list byte) (k : nat) (b : byte) :
  src !! k = Some b ->
  buf_get (buf_write g off src) (off + Z.of_nat k) = b.
Proof.
  revert g off k. induction src as [|c src IH]; intros g off k H; [discriminate|].
  destruct k as [|k]; simpl in H; cbn [buf_write].
  - injection H as ->. rewrite buf_get_write_outside by lia.
    unfold buf_get. rewrite Z.add_0_r. now rewrite lookup_insert_eq.
  - replace (off + Z.of_nat (S k)) with (off + 1 + Z.of_nat k) by lia.
    now apply IH.
Qed.

Lemma buf_read_write_same (g : gmap Z byte) (off : Z) (src : list byte) :
  buf_read (buf_write g off src) off (length src) = src.
Proof.
  apply list_eq. intros k.
  destruct (src !! k) as [b|] eqn:E.
  - rewrite buf_read_lookup by (eapply lookup_lt_Some; eauto).
    f_equal. now apply buf_get_write_inside.
  - apply lookup_ge_None. rewrite buf_read_length. now apply lookup_ge_None.
Qed.

Lemma buf_read_write_disjoint (g : gmap Z byte) (off : Z) (src : list byte) (o : Z) (n : nat) :
  o + Z.of_nat n <= off \/ off + Z.of_nat (length src) <= o ->
  buf_read (buf_write g off src) o n = buf_read g o n.
Proof.
  intros H. apply buf_read_ext. intros i Hi.
  apply buf_get_write_outside. lia.
Qed.

(** ** The hash: every step succeeds *)

Ltac splits := repeat match goal with |- _ /\ _ => split end.

Lemma bind_Ok {A B : Type} (a : A) (k : A -> Result B) : (Ok a ≫= k) = k a.
Proof. reflexivity. Qed.

Lemma copy_to_zeros_prefix (m n : nat) (hi : Z) (src : list byte) :
  hi = Z.of_nat n -> length src = n -> (n <= m)%nat ->
  copy_to (zeros m) 0 hi src = Ok (src ++ zeros (m - n)).
Proof.
  intros -> Hlen Hle. unfold zeros.
  rewrite copy_to_exact by (rewrite ?length_replicate; lia).
  rewrite Nat2Z.id. simpl. now rewrite drop_replicate.
Qed.

Section HashProperties.

Variable Sum512 : list byte -> list byte.
Variable XORKeyStream : list byte -> list byte -> list byte -> list byte.

Hypothesis Sum512_length : forall d, length (Sum512 d) = 64%nat.
Hypothesis XORKeyStream_length :
  forall inp ctr key, length (XORKeyStream inp ctr key) = length inp.

Local Abbreviation hash_init := (hash_init Sum512 XORKeyStream).
Local Abbreviation fill_body := (fill_body XORKeyStream).
Local Abbreviation fill_loop := (fill_loop XORKeyStream).
Local Abbreviation fill_phase := (fill_phase Sum512 XORKeyStream).
Local Abbreviation mix_swap := (mix_swap XORKeyStream).
Local Abbreviation mix_body := (mix_body XORKeyStream).
Local Abbreviation mix_loop := (mix_loop XORKeyStream).
Local Abbreviation mix_iter := (mix_iter XORKeyStream).
Local Abbreviation hash_run := (hash_run Sum512 XORKeyStream).
Local Abbreviation hash := (computeZeroTierIdentityMemoryHardHash Sum512 XORKeyStream).

Local Abbreviation key_of := (key_of Sum512).
Local Abbreviation nonce_of := (nonce_of Sum512).
Local Abbreviation fill_inv := (fill_inv Sum512 XORKeyStream).

Lemma hash_init_ok (pk : list byte) :
  hash_init pk =
    Ok (mkHashState (Sum512 pk)
          (buf_write ∅ 0 (XORKeyStream (zeros 64) (nonce_of pk ++ zeros 8) (key_of pk)))
          (key_of pk) (nonce_of pk ++ zeros 8) 1).
Proof.
  unfold hash_init, key_of, nonce_of. cbv zeta.
  rewrite (slice_ok (Sum512 pk) 0 32), (slice_ok (Sum512 pk) 32 40)
    by (rewrite ?Sum512_length; lia).
  rewrite bind_Ok.
  change (Z.to_nat (32 - 0)) with 32%nat. change (Z.to_nat 0) with 0%nat.
  rewrite drop_0.
  rewrite (copy_to_zeros_prefix 32 32)
    by (rewrite ?length_take, ?Sum512_length; lia).
  rewrite !bind_Ok.
  change (Z.to_nat (40 - 32)) with 8%nat. change (Z.to_nat 32) with 32%nat.
  rewrite (copy_to_zeros_prefix 16 8)
    by (rewrite ?length_take, ?length_drop, ?Sum512_length; lia).
  rewrite bind_Ok.
  change (32 - 32)%nat with 0%nat. change (zeros 0) with (@nil byte).
  rewrite app_nil_r.
  reflexivity.
Qed.

Lemma fill_body_ok (i : Z) (st : HashState) :
  wf_state st -> 64 <= i -> i + 64 <= ztIdentityGenMemory ->
  fill_body i st =
    Ok (mkHashState (s512 st)
          (buf_write (genmem st) i
             (XORKeyStream (buf_read (genmem st) (i - 64) 64)
                (take 8 (s20ctr st) ++ le_bytes64 (s20ctri st)) (s20key st)))
          (s20key st)
          (take 8 (s20ctr st) ++ le_bytes64 (s20ctri st))
          (wrap64 (s20ctri st + 1))).
Proof.
  intros (Hs & Hk & Hc) Hlo Hhi. unfold fill_body.
  rewrite PutUint64_le_counter by assumption. rewrite bind_Ok.
  unfold genmem_slice.
  rewrite !bounds_ok_true by lia. rewrite !bind_Ok.
  replace (i - (i - 64)) with 64 by lia.
  reflexivity.
Qed.

(** *** The fill loop *)

Lemma key_of_length (pk : list byte) : length (key_of pk) = 32%nat.
Proof. unfold key_of. rewrite length_take, Sum512_length. reflexivity. Qed.

Lemma nonce_of_length (pk : list byte) : length (nonce_of pk) = 8%nat.
Proof. unfold nonce_of. rewrite length_take, length_drop, Sum512_length. reflexivity. Qed.

Lemma fill_inv_init (pk : list byte) (st : HashState) :
  hash_init pk = Ok st -> fill_inv pk 1 st.
Proof.
  rewrite hash_init_ok. intros [= <-]. unfold fill_inv, wf_state; simpl.
  repeat split.
  - apply Sum512_length.
  - apply key_of_length.
  - rewrite length_app, nonce_of_length. reflexivity.
  - rewrite take_app_length'; [reflexivity | now rewrite nonce_of_length].
  - unfold block, counter_block.
    change (le_bytes64 0) with (zeros 8).
    set (src := XORKeyStream _ _ _).
    assert (Hlen : length src = 64%nat) by (unfold src; now rewrite XORKeyStream_length).
    rewrite <- Hlen at 1. apply buf_read_write_same.
  - intros k Hk. lia.
Qed.

Lemma fill_body_inv (pk : list byte) (j : Z) (st : HashState) :
  fill_inv pk j st -> 1 <= j -> 64 * j + 64 <= ztIdentityGenMemory ->
  exists st', fill_body (64 * j) st = Ok st' /\ fill_inv pk (j + 1) st'.
Proof.
  intros (Hwf & Hs & Hk & Hn & Hc & H0 & Hblocks) Hj Hhi.
  rewrite fill_body_ok by (auto; lia).
  eexists; split; [reflexivity|].
  pose proof Hwf as (Hls & Hlk & Hlc).
  set (src := XORKeyStream _ _ _).
  assert (Hlen : length src = 64%nat)
    by (unfold src; now rewrite XORKeyStream_length, buf_read_length).
  assert (Hbelow : forall k, 0 <= k < j ->
            block (buf_write (genmem st) (64 * j) src) k = block (genmem st) k).
  { intros k Hk'. unfold block. apply buf_read_write_disjoint. lia. }
  unfold fill_inv, wf_state; simpl. repeat split; auto.
  - rewrite length_app, length_take, le_bytes64_length. lia.
  - rewrite take_app_length'; [assumption | rewrite length_take; lia].
  - rewrite Hc. apply wrap64_small. unfold ztIdentityGenMemory in Hhi. lia.
  - rewrite Hbelow by lia. assumption.
  - intros k Hk'. destruct (Z.eq_dec k j) as [->|Hne].
    + rewrite (Hbelow (j - 1)) by lia.
      unfold block at 1. rewrite <- Hlen at 1. rewrite buf_read_write_same.
      unfold src, block, counter_block. rewrite Hn, Hc, Hk.
      do 3 f_equal. lia.
    + rewrite !Hbelow by lia. apply Hblocks. lia.
Qed.

Lemma fill_loop_unfold (fuel : nat) (i : Z) (st : HashState) :
  fill_loop fuel i st =
    if i <? ztIdentityGenMemory then
      match fuel with
      | O => OutOfFuel
      | S fuel' => fill_body i st ≫= fill_loop fuel' (i + 64)
      end
    else Ok st.
Proof. destruct fuel; reflexivity. Qed.

Lemma fill_loop_ok (pk : list byte) (fuel : nat) :
  forall j st,
    fill_inv pk j st -> 1 <= j <= 32768 -> 32768 - j <= Z.of_nat fuel ->
    exists st', fill_loop fuel (64 * j) st = Ok st' /\ fill_inv pk 32768 st'.
Proof.
  induction fuel as [|fuel IH]; intros j st Hinv Hj Hfuel;
    rewrite fill_loop_unfold.
  - assert (j = 32768) as -> by lia.
    change (64 * 32768 <? ztIdentityGenMemory) with false. eauto.
  - destruct (Z.ltb_spec (64 * j) ztIdentityGenMemory) as [Hlt|Hge].
    + rewrite genmem_value in Hlt.
      destruct (fill_body_inv pk j st Hinv) as (st1 & Hbody & Hinv1);
        [lia | rewrite genmem_value; lia |].
      rewrite Hbody, bind_Ok.
      replace (64 * j + 64) with (64 * (j + 1)) by lia.
      apply IH; [assumption | lia | lia].
    + rewrite genmem_value in Hge. assert (j = 32768) as -> by lia. eauto.
Qed.

Lemma fill_phase_ok (pk : list byte) (fuel : nat) :
  32767 <= Z.of_nat fuel ->
  exists st, fill_phase fuel pk = Ok st /\ fill_inv pk 32768 st.
Proof.
  intros Hfuel. unfold fill_phase.
  rewrite hash_init_ok, bind_Ok.
  apply (fill_loop_ok pk fuel 1); [|lia|lia].
  apply fill_inv_init, hash_init_ok.
Qed.

(** *** The mixing loop *)

Lemma genmem_be_uint64_ok (g : gmap Z byte) (lo : Z) :
  0 <= lo -> lo + 8 <= ztIdentityGenMemory ->
  genmem_be_uint64 g lo = Ok (be_uint64 (buf_read g lo 8)).
Proof.
  intros Hlo Hhi. unfold genmem_be_uint64, genmem_slice.
  rewrite bounds_ok_true by lia. rewrite bind_Ok.
  destruct (Z.ltb_spec (ztIdentityGenMemory - lo) 8); [lia | reflexivity].
Qed.

Lemma land7_range (v : Z) : 0 <= Z.land v 7 <= 7.
Proof.
  change 7 with (Z.ones 3) at 1 2. rewrite Z.land_ones by lia.
  pose proof (Z.mod_pos_bound v (2 ^ 3)). lia.
Qed.

Lemma wrap64_mod_genmem (v : Z) :
  wrap64 v mod (ztIdentityGenMemory / 8) = v mod (ztIdentityGenMemory / 8).
Proof.
  unfold wrap64. rewrite Z.land_ones by lia. rewrite genmem_div8.
  apply Z.mod_mod_divide. exists (2 ^ 46). reflexivity.
Qed.

(** The two offsets are computed from the working buffer at [i] and
    [i + 8], and the loop variable advances by 16. *)
Lemma mix_select_ok (i : Z) (st : HashState) :
  0 <= i -> i + 16 <= ztIdentityGenMemory ->
  mix_select i st =
    Ok (Z.land (be_uint64 (buf_read (genmem st) i 8)) 7 * 8,
        be_uint64 (buf_read (genmem st) (i + 8) 8) mod (ztIdentityGenMemory / 8) * 8,
        i + 16).
Proof.
  intros Hlo Hhi. unfold mix_select. cbv zeta.
  rewrite (genmem_be_uint64_ok _ i), (genmem_be_uint64_ok _ (i + 8)) by lia.
  rewrite !bind_Ok. rewrite wrap64_mod_genmem.
  rewrite !wrap64_small.
  - replace (i + 8 + 8) with (i + 16) by lia. reflexivity.
  - pose proof (Z.mod_pos_bound (be_uint64 (buf_read (genmem st) (i + 8) 8))
                  (ztIdentityGenMemory / 8) eq_refl) as H.
    rewrite genmem_div8 in *. lia.
  - pose proof (land7_range (be_uint64 (buf_read (genmem st) i 8))). lia.
Qed.

Lemma mix_select_bounds (i : Z) (st : HashState) (idx1 idx2 i' : Z) :
  0 <= i -> i + 16 <= ztIdentityGenMemory ->
  mix_select i st = Ok (idx1, idx2, i') ->
  (8 | idx1) /\ 0 <= idx1 <= 56 /\
  (8 | idx2) /\ 0 <= idx2 <= ztIdentityGenMemory - 8 /\
  i' = i + 16.
Proof.
  intros Hlo Hhi. rewrite mix_select_ok by assumption.
  generalize (be_uint64 (buf_read (genmem st) i 8)),
             (be_uint64 (buf_read (genmem st) (i + 8) 8)).
  intros v1 v2 [= <- <- <-].
  pose proof (land7_range v1).
  pose proof (Z.mod_pos_bound v2 (ztIdentityGenMemory / 8) eq_refl) as H2.
  rewrite genmem_div8 in *. rewrite genmem_value.
  splits; try lia; apply Z.divide_factor_r.
Qed.

Lemma mix_swap_ok (idx1 idx2 : Z) (st : HashState) :
  wf_state st ->
  0 <= idx1 <= 56 -> 0 <= idx2 <= ztIdentityGenMemory - 8 ->
  mix_swap idx1 idx2 st =
    Ok (mkHashState
          (XORKeyStream
             (take (Z.to_nat idx1) (s512 st)
              ++ buf_read (genmem st) idx2 8
              ++ drop (Z.to_nat (idx1 + 8)) (s512 st))
             (take 8 (s20ctr st) ++ le_bytes64 (s20ctri st)) (s20key st))
          (buf_write (genmem st) idx2 (take 8 (drop (Z.to_nat idx1) (s512 st))))
          (s20key st)
          (take 8 (s20ctr st) ++ le_bytes64 (s20ctri st))
          (wrap64 (s20ctri st + 1))).
Proof.
  intros (Hs & Hk & Hc) H1 H2. unfold mix_swap, genmem_slice.
  rewrite (wrap64_small (idx2 + 8)), (wrap64_small (idx1 + 8))
    by (rewrite ?genmem_value in *; lia).
  rewrite bounds_ok_true by lia. rewrite bind_Ok.
  rewrite slice_ok by lia. rewrite bind_Ok.
  replace (idx2 + 8 - idx2) with 8 by lia.
  replace (idx1 + 8 - idx1) with 8 by lia.
  change (Z.to_nat 8) with 8%nat.
  rewrite (copy_to_zeros_prefix 8 8) by (rewrite ?buf_read_length; lia).
  rewrite bind_Ok. change (zeros (8 - 8)) with (@nil byte). rewrite app_nil_r.
  rewrite copy_to_exact by (rewrite ?buf_read_length; lia).
  rewrite bind_Ok. rewrite PutUint64_le_counter by assumption. rewrite bind_Ok.
  rewrite take_take. reflexivity.
Qed.

Lemma mix_body_ok (i : Z) (st : HashState) :
  wf_state st -> 0 <= i -> i + 16 <= ztIdentityGenMemory ->
  exists st',
    mix_body i st = Ok (i + 16, st') /\
    wf_state st' /\
    s20ctri st' = wrap64 (s20ctri st + 1).
Proof.
  intros Hwf Hlo Hhi. unfold mix_body.
  destruct (mix_select i st) as [[[idx1 idx2] i']| |] eqn:Hsel;
    try (rewrite mix_select_ok in Hsel by assumption; discriminate).
  destruct (mix_select_bounds _ _ _ _ _ Hlo Hhi Hsel) as (_ & B1 & _ & B2 & ->).
  rewrite bind_Ok. rewrite mix_swap_ok by assumption. rewrite bind_Ok.
  eexists; split; [reflexivity|].
  destruct Hwf as (Hs & Hk & Hc).
  unfold wf_state; cbn [s512 s20key s20ctr s20ctri genmem]. splits; auto.
  - rewrite XORKeyStream_length, !length_app, length_take, buf_read_length, length_drop.
    lia.
  - rewrite length_app, length_take, le_bytes64_length. lia.
Qed.

Lemma mix_loop_unfold (fuel : nat) (i : Z) (st : HashState) :
  mix_loop fuel i st =
    if i <? ztIdentityGenMemory then
      match fuel with
      | O => OutOfFuel
      | S fuel' => mix_body i st ≫= (fun '(i', st') => mix_loop fuel' i' st')
      end
    else Ok st.
Proof. destruct fuel; reflexivity. Qed.

(** At the head of every iteration of the mixing loop the loop variable
    is a multiple of 16 and the counter has advanced once per iteration. *)
Lemma mix_iter_inv (st0 : HashState) (i : Z) (st : HashState) :
  wf_state st0 -> s20ctri st0 = 32768 ->
  mix_iter st0 i st ->
  exists j, i = 16 * j /\ 0 <= j <= 131072 /\
            wf_state st /\ s20ctri st = 32768 + j.
Proof.
  intros Hwf0 Hc0 Hit. induction Hit as [|i st i' st' Hit IH Hlt Hbody].
  - exists 0. splits; auto; lia.
  - destruct IH as (j & -> & Hj & Hwf & Hc).
    rewrite genmem_value in Hlt.
    destruct (mix_body_ok (16 * j) st Hwf) as (st1 & Hb & Hwf1 & Hc1);
      [lia | rewrite genmem_value; lia |].
    rewrite Hb in Hbody. injection Hbody as <- <-.
    exists (j + 1). splits; try lia; auto.
    rewrite Hc1, Hc. rewrite wrap64_small; lia.
Qed.

Lemma mix_loop_ok (fuel : nat) :
  forall j st,
    wf_state st -> 0 <= j <= 131072 -> 0 <= s20ctri st <= 32768 + j ->
    131072 - j <= Z.of_nat fuel ->
    exists st',
      mix_loop fuel (16 * j) st = Ok st' /\
      wf_state st' /\
      s20ctri st' = s20ctri st + (131072 - j) /\
      forall st0, mix_iter st0 (16 * j) st -> mix_iter st0 ztIdentityGenMemory st'.
Proof.
  induction fuel as [|fuel IH]; intros j st Hwf Hj Hc Hfuel;
    rewrite mix_loop_unfold.
  - assert (j = 131072) as -> by lia.
    change (16 * 131072 <? ztIdentityGenMemory) with false.
    exists st. splits; auto; lia.
  - destruct (Z.ltb_spec (16 * j) ztIdentityGenMemory) as [Hlt|Hge].
    + pose proof Hlt as Hlt'. rewrite genmem_value in Hlt'.
      destruct (mix_body_ok (16 * j) st Hwf) as (st1 & Hb & Hwf1 & Hc1);
        [lia | rewrite genmem_value; lia |].
      rewrite Hb, bind_Ok.
      rewrite wrap64_small in Hc1 by lia.
      replace (16 * j + 16) with (16 * (j + 1)) in * by lia.
      destruct (IH (j + 1) st1) as (st' & Hl & Hwf' & Hc' & Hreach);
        [assumption | lia | lia | lia |].
      exists st'. splits; auto; [lia|].
      intros st0 Hit. apply Hreach. eapply mix_iter_next; eauto.
    + rewrite genmem_value in Hge. assert (j = 131072) as -> by lia.
      exists st. splits; auto; lia.
Qed.

(** The whole run: fill, then mix. *)
Lemma hash_run_ok (pk : list byte) (fuel : nat) :
  131072 <= Z.of_nat fuel ->
  exists st0 st,
    fill_phase fuel pk = Ok st0 /\ fill_inv pk 32768 st0 /\
    mix_loop fuel 0 st0 = Ok st /\
    hash_run fuel pk = Ok st /\
    wf_state st /\ s20ctri st = 163840 /\
    mix_iter st0 ztIdentityGenMemory st.
Proof.
  intros Hfuel.
  destruct (fill_phase_ok pk fuel) as (st0 & Hfill & Hinv); [lia|].
  pose proof Hinv as (Hwf & _ & _ & _ & Hc & _).
  destruct (mix_loop_ok fuel 0 st0) as (st & Hmix & Hwf' & Hc' & Hreach);
    [assumption | lia | lia | lia |].
  change (16 * 0) with 0 in *.
  exists st0, st. unfold hash_run. rewrite Hfill, bind_Ok.
  splits; auto; [lia|].
  apply Hreach. constructor.
Qed.

(** *** Fuel

    A loop that ends with some fuel ends the same way with more. *)

Lemma fill_loop_more_fuel (fuel k : nat) :
  forall i st r,
    fill_loop fuel i st = r -> r <> OutOfFuel -> fill_loop (fuel + k) i st = r.
Proof.
  induction fuel as [|fuel IH]; intros i st r Hrun Hr;
    rewrite fill_loop_unfold in Hrun; rewrite fill_loop_unfold.
  - destruct (i <? ztIdentityGenMemory); [congruence | assumption].
  - destruct (i <? ztIdentityGenMemory); [|assumption].
    cbn [Nat.add].
    destruct (fill_body i st) as [st1| |]; [| assumption | assumption].
    rewrite bind_Ok in *. now apply IH.
Qed.

Lemma mix_loop_more_fuel (fuel k : nat) :
  forall i st r,
    mix_loop fuel i st = r -> r <> OutOfFuel -> mix_loop (fuel + k) i st = r.
Proof.
  induction fuel as [|fuel IH]; intros i st r Hrun Hr;
    rewrite mix_loop_unfold in Hrun; rewrite mix_loop_unfold.
  - destruct (i <? ztIdentityGenMemory); [congruence | assumption].
  - destruct (i <? ztIdentityGenMemory); [|assumption].
    cbn [Nat.add].
    destruct (mix_body i st) as [[i1 st1]| |]; [| assumption | assumption].
    rewrite bind_Ok in *. now apply IH.
Qed.

Lemma hash_run_more_fuel (fuel k : nat) (pk : list byte) (st : HashState) :
  hash_run fuel pk = Ok st -> hash_run (fuel + k) pk = Ok st.
Proof.
  unfold hash_run, fill_phase. rewrite hash_init_ok, !bind_Ok.
  destruct (fill_loop fuel 64 _) as [st0| |] eqn:Hfill; try discriminate.
  rewrite bind_Ok. intros Hmix.
  rewrite (fill_loop_more_fuel fuel k _ _ _ Hfill) by discriminate.
  rewrite bind_Ok. apply mix_loop_more_fuel; [assumption | discriminate].
Qed.

(** With any amount of fuel the run either lacks fuel or ends in the state
    that [hash_fuel] units of fuel reach. *)
Lemma hash_run_any_fuel (fuel : nat) (pk : list byte) :
  exists st, hash_run hash_fuel pk = Ok st /\ wf_state st /\
    (hash_run fuel pk = Ok st \/ hash_run fuel pk = OutOfFuel).
Proof.
  destruct (hash_run_ok pk hash_fuel) as (st0 & st & _ & _ & _ & Hrun & Hwf & _);
    [rewrite hash_fuel_value; lia |].
  exists st. split; [assumption|]. split; [assumption|].
  destruct (Nat.le_ge_cases (Z.to_nat 131072) fuel) as [Hle|Hge].
  - left.
    destruct (hash_run_ok pk fuel) as (st0' & st' & _ & _ & _ & Hrun' & _); [lia|].
    pose proof (hash_run_more_fuel _ fuel _ _ Hrun) as H1.
    pose proof (hash_run_more_fuel _ hash_fuel _ _ Hrun') as H2.
    rewrite Nat.add_comm in H2. congruence.
  - destruct (hash_run fuel pk) as [st'| p |] eqn:Hrun'; [left | exfalso | now right].
    + pose proof (hash_run_more_fuel _ hash_fuel _ _ Hrun') as H1.
      pose proof (hash_run_more_fuel _ fuel _ _ Hrun) as H2.
      rewrite Nat.add_comm in H2. congruence.
    + revert Hrun'. unfold hash_run, fill_phase. rewrite hash_init_ok, !bind_Ok.
      destruct (fill_loop fuel 64 _) as [s1| p1 |] eqn:Hfill.
      * rewrite bind_Ok. intros Hmix.
        assert (Hfill' := fill_loop_more_fuel fuel hash_fuel _ _ _ Hfill ltac:(discriminate)).
        assert (Hmix' := mix_loop_more_fuel fuel hash_fuel _ _ _ Hmix ltac:(discriminate)).
        destruct (hash_run_ok pk (fuel + hash_fuel)) as (a & b & Hf & _ & Hm & _);
          [rewrite Nat2Z.inj_add, hash_fuel_value; lia |].
        unfold fill_phase in Hf. rewrite hash_init_ok, bind_Ok in Hf.
        congruence.
      * intros _.
        assert (Hfill' := fill_loop_more_fuel fuel hash_fuel _ _ _ Hfill ltac:(discriminate)).
        destruct (hash_run_ok pk (fuel + hash_fuel)) as (a & b & Hf & _);
          [rewrite Nat2Z.inj_add, hash_fuel_value; lia |].
        unfold fill_phase in Hf. rewrite hash_init_ok, bind_Ok in Hf.
        congruence.
      * discriminate.
Qed.

(** *** The states of the mixing loop *)

Lemma fill_inv_start (pk : list byte) (st0 : HashState) :
  fill_phase hash_fuel pk = Ok st0 -> wf_state st0 /\ s20ctri st0 = 32768.
Proof.
  intros Hfill.
  destruct (fill_phase_ok pk hash_fuel) as (st & Hfill' & Hinv);
    [rewrite hash_fuel_value; lia |].
  assert (st = st0) as -> by congruence.
  destruct Hinv as (Hwf & _ & _ & _ & Hc & _). auto.
Qed.

Lemma mix_iter_step (st0 : HashState) (i : Z) (st : HashState) :
  wf_state st0 -> s20ctri st0 = 32768 ->
  mix_iter st0 i st -> i < ztIdentityGenMemory ->
  0 <= i /\ i + 16 <= ztIdentityGenMemory /\ wf_state st /\
  exists st', mix_body i st = Ok (i + 16, st') /\ s20ctri st' = s20ctri st + 1.
Proof.
  intros Hwf0 Hc0 Hit Hlt.
  destruct (mix_iter_inv st0 i st Hwf0 Hc0 Hit) as (j & -> & Hj & Hwf & Hc).
  rewrite genmem_value in *.
  assert (Hlo : 0 <= 16 * j) by lia.
  assert (Hhi : 16 * j + 16 <= ztIdentityGenMemory) by (rewrite genmem_value; lia).
  destruct (mix_body_ok (16 * j) st Hwf Hlo Hhi) as (st' & Hb & _ & Hc').
  rewrite genmem_value in *.
  splits; [lia | lia | assumption |].
  exists st'. split; [assumption|]. rewrite Hc'. apply wrap64_small. lia.
Qed.

Lemma mix_iter_exists (st0 : HashState) :
  wf_state st0 -> s20ctri st0 = 32768 ->
  forall n : nat, Z.of_nat n <= 131072 ->
    exists st, mix_iter st0 (16 * Z.of_nat n) st.
Proof.
  intros Hwf0 Hc0. induction n as [|n IH]; intros Hn.
  - exists st0. constructor.
  - destruct IH as (st & Hit); [lia|].
    destruct (mix_iter_step st0 _ st Hwf0 Hc0 Hit) as (_ & _ & _ & st' & Hb & _);
      [rewrite genmem_value; lia |].
    exists st'. replace (16 * Z.of_nat (S n)) with (16 * Z.of_nat n + 16) by lia.
    eapply mix_iter_next; eauto. rewrite genmem_value; lia.
Qed.

(** The key and the nonce stay what the seed gave, at the head of every
    iteration of the mixing loop. *)
Lemma mix_iter_key_nonce (pk : list byte) (st0 : HashState) (i : Z) (st : HashState) :
  fill_inv pk 32768 st0 ->
  mix_iter st0 i st ->
  s20key st = key_of pk /\ take 8 (s20ctr st) = nonce_of pk.
Proof.
  intros Hinv Hit.
  pose proof Hinv as (Hwf0 & _ & Hk0 & Hn0 & Hc0 & _).
  induction Hit as [|i st i' st' Hit IH Hlt Hbody]; [auto|].
  destruct IH as (Hk & Hn).
  destruct (mix_iter_step st0 i st Hwf0 Hc0 Hit Hlt) as (Hlo & Hhi & Hwf & _).
  revert Hbody. unfold mix_body.
  pose proof (mix_select_ok i st Hlo Hhi) as Hsel.
  destruct (mix_select_bounds i st _ _ _ Hlo Hhi Hsel) as (_ & B1 & _ & B2 & _).
  rewrite Hsel, bind_Ok. cbv beta iota.
  rewrite mix_swap_ok by assumption.
  rewrite bind_Ok. intros Heq.
  assert (Hk' : s20key st' = s20key st) by (injection Heq as _ <-; reflexivity).
  assert (Hc' : s20ctr st' = take 8 (s20ctr st) ++ le_bytes64 (s20ctri st))
    by (injection Heq as _ <-; reflexivity).
  rewrite Hk', Hc'. split; [assumption|].
  destruct Hwf as (_ & _ & Hlc).
  rewrite take_app_length'; [assumption | rewrite length_take; lia].
Qed.

(** *** The claims about the hash *)

(** C4. The working buffer is filled strictly sequentially: after the fill
    phase, block 0 is the keystream at counter 0 applied to a block of 64
    zero bytes, and every later block [k] (of the 2097152 / 64 blocks) is the
    keystream at counter [k] applied to block [k - 1]. *)
Theorem fill_is_sequential (pk : list byte) :
  exists st,
    fill_phase hash_fuel pk = Ok st /\
    block (genmem st) 0
      = XORKeyStream (zeros 64) (counter_block (nonce_of pk) 0) (key_of pk) /\
    forall k, 1 <= k < ztIdentityGenMemory / 64 ->
      block (genmem st) k
      = XORKeyStream (block (genmem st) (k - 1))
          (counter_block (nonce_of pk) k) (key_of pk).
Proof.
  destruct (fill_phase_ok pk hash_fuel) as (st & Hfill & Hinv);
    [rewrite hash_fuel_value; lia |].
  destruct Hinv as (_ & _ & _ & _ & _ & H0 & Hk).
  exists st. splits; auto.
Qed.

(** C5, as the code has it.  The fill phase uses 2097152 / 64 = 32768
    keystream blocks.  The mixing pass runs the iterations [j] = 0 ..
    2097152 / 16 - 1, at the loop variable [16 j].  Every iteration advances
    the loop variable by 16 (two steps of 8, one for each integer it reads),
    swaps once (the buffer takes at [idx2] the 8 seed bytes of [idx1], the
    seed takes the 8 buffer bytes, no other buffer byte changes) and calls the
    keystream once, on the whole 64-byte seed at the counter [32768 + j] with
    the key and the nonce of the fill phase.  So the pass re-encrypts
    2097152 / 16 = 131072 times. *)
Theorem mixing_pass_reencryptions (pk : list byte) :
  exists st0 st,
    fill_phase hash_fuel pk = Ok st0 /\
    s20ctri st0 = ztIdentityGenMemory / 64 /\
    mix_loop hash_fuel 0 st0 = Ok st /\
    s20ctri st - s20ctri st0 = ztIdentityGenMemory / 16 /\
    (forall j, 0 <= j < ztIdentityGenMemory / 16 ->
               exists st1, mix_iter st0 (16 * j) st1) /\
    forall i st1,
      mix_iter st0 i st1 -> i < ztIdentityGenMemory ->
      exists j idx1 idx2 st2,
        i = 16 * j /\ 0 <= j < ztIdentityGenMemory / 16 /\
        s20ctri st1 = ztIdentityGenMemory / 64 + j /\
        mix_select i st1 = Ok (idx1, idx2, i + 16) /\
        mix_body i st1 = Ok (i + 16, st2) /\
        s20ctri st2 = s20ctri st1 + 1 /\
        buf_read (genmem st2) idx2 8 = take 8 (drop (Z.to_nat idx1) (s512 st1)) /\
        (forall off, off < idx2 \/ idx2 + 8 <= off ->
                     buf_get (genmem st2) off = buf_get (genmem st1) off) /\
        length (s512 st1) = 64%nat /\
        s512 st2 =
          XORKeyStream
            (take (Z.to_nat idx1) (s512 st1)
             ++ buf_read (genmem st1) idx2 8
             ++ drop (Z.to_nat idx1 + 8) (s512 st1))
            (counter_block (nonce_of pk) (ztIdentityGenMemory / 64 + j))
            (key_of pk).
Proof.
  destruct (hash_run_ok pk hash_fuel)
    as (st0 & st & Hfill & Hinv & Hmix & _ & _ & Hc & _);
    [rewrite hash_fuel_value; lia |].
  destruct (fill_inv_start pk st0 Hfill) as (Hwf0 & Hc0).
  exists st0, st.
  split; [assumption|]. split; [assumption|]. split; [assumption|].
  split; [rewrite Hc, Hc0; reflexivity|]. split.
  - intros j Hj. change (ztIdentityGenMemory / 16) with 131072 in Hj.
    destruct (mix_iter_exists st0 Hwf0 Hc0 (Z.to_nat j)) as (st1 & H); [lia|].
    rewrite Z2Nat.id in H by lia. eauto.
  - intros i st1 Hit Hlt.
    destruct (mix_iter_key_nonce pk st0 i st1 Hinv Hit) as (Hk & Hn).
    destruct (mix_iter_inv st0 i st1 Hwf0 Hc0 Hit) as (j & -> & Hj & Hwf & Hc1).
    rewrite genmem_value in Hlt.
    assert (Hlo : 0 <= 16 * j) by lia.
    assert (Hhi : 16 * j + 16 <= ztIdentityGenMemory) by (rewrite genmem_value; lia).
    pose proof (mix_select_ok (16 * j) st1 Hlo Hhi) as Hsel.
    destruct (mix_select_bounds (16 * j) st1 _ _ _ Hlo Hhi Hsel)
      as (_ & B1 & _ & B2 & _).
    exists j. eexists _, _, _.
    split; [reflexivity|].
    split; [change (ztIdentityGenMemory / 16) with 131072; lia|].
    split; [exact Hc1|]. split; [exact Hsel|].
    unfold mix_body. rewrite Hsel, bind_Ok. cbv beta iota.
    rewrite mix_swap_ok by assumption. rewrite bind_Ok.
    split; [reflexivity|]. cbn [genmem s512 s20ctr s20key s20ctri].
    pose proof Hwf as (Hls & _).
    set (idx1 := Z.land _ 7 * 8) in *. set (idx2 := _ mod _ * 8) in *.
    assert (Hlen : length (take 8 (drop (Z.to_nat idx1) (s512 st1))) = 8%nat)
      by (rewrite length_take, length_drop; lia).
    splits.
    + apply wrap64_small. lia.
    + pose proof (buf_read_write_same (genmem st1) idx2
                    (take 8 (drop (Z.to_nat idx1) (s512 st1)))) as Hrw.
      now rewrite Hlen in Hrw.
    + intros off Hoff. apply buf_get_write_outside. rewrite Hlen. lia.
    + exact Hls.
    + unfold counter_block. rewrite Hk, Hn, Hc1.
      replace (Z.to_nat (idx1 + 8)) with (Z.to_nat idx1 + 8)%nat by lia.
      reflexivity.
Qed.

(** C8. The hash is deterministic: on a 64-byte input it returns a 64-byte
    digest, and every evaluation that completes, with whatever fuel, returns
    that same digest.  The function takes nothing but its input. *)
Theorem memory_hard_hash_deterministic (x : list byte) :
  length x = 64%nat ->
  exists d,
    length d = 64%nat /\
    computeZeroTierIdentityMemoryHardHash Sum512 XORKeyStream x = Ok d /\
    forall fuel d', memoryHardHash_fuel Sum512 XORKeyStream fuel x = Ok d' -> d' = d.
Proof.
  intros _.
  destruct (hash_run_any_fuel 0 x) as (st & Hrun & (Hlen & _) & _).
  exists (s512 st). splits; [assumption | |].
  - unfold computeZeroTierIdentityMemoryHardHash, memoryHardHash_fuel.
    fold hash_run. now rewrite Hrun.
  - intros fuel d'. unfold memoryHardHash_fuel. fold hash_run.
    destruct (hash_run_any_fuel fuel x) as (st' & Hrun' & _ & [H|H]);
      rewrite H; [|discriminate].
    rewrite bind_Ok. intros [= <-]. congruence.
Qed.

(** C10. Every memory access of the mixing pass is in bounds, for every
    input: the hash returns without a panic; in every iteration the two
    8-byte reads at [i] and [i + 8] end within the buffer, [idx1] is a
    multiple of 8 at most 56, inside the 64-byte seed, and [idx2] is a
    multiple of 8 at most 2097152 - 8; and the last iteration is the one at
    [i = 2097152 - 16], whose second read starts at 2097152 - 8. *)
Theorem mixing_accesses_in_bounds (pk : list byte) :
  (exists dig, computeZeroTierIdentityMemoryHardHash Sum512 XORKeyStream pk = Ok dig) /\
  exists st0,
    fill_phase hash_fuel pk = Ok st0 /\
    (forall i st,
        mix_iter st0 i st -> i < ztIdentityGenMemory ->
        0 <= i /\ (i + 8) + 8 <= ztIdentityGenMemory /\
        exists idx1 idx2 st',
          mix_select i st = Ok (idx1, idx2, i + 16) /\
          (8 | idx1) /\ 0 <= idx1 <= 56 /\
          idx1 + 8 <= Z.of_nat (length (s512 st)) /\
          (8 | idx2) /\ 0 <= idx2 <= ztIdentityGenMemory - 8 /\
          mix_body i st = Ok (i + 16, st')) /\
    (exists st, mix_iter st0 (ztIdentityGenMemory - 16) st) /\
    (forall i st, mix_iter st0 i st -> i < ztIdentityGenMemory ->
                  i <= ztIdentityGenMemory - 16).
Proof.
  split.
  - destruct (hash_run_any_fuel 0 pk) as (st & Hrun & _).
    exists (s512 st).
    unfold computeZeroTierIdentityMemoryHardHash, memoryHardHash_fuel.
    fold hash_run. now rewrite Hrun.
  - destruct (fill_phase_ok pk hash_fuel) as (st0 & Hfill & _);
      [rewrite hash_fuel_value; lia |].
    destruct (fill_inv_start pk st0 Hfill) as (Hwf0 & Hc0).
    exists st0. splits; [assumption | | |].
    + intros i st Hit Hlt.
      destruct (mix_iter_step st0 i st Hwf0 Hc0 Hit Hlt)
        as (Hlo & Hhi & Hwf & st' & Hb & _).
      splits; [lia | lia |].
      pose proof (mix_select_ok i st Hlo Hhi) as Hsel.
      destruct (mix_select_bounds _ _ _ _ _ Hlo Hhi Hsel) as (D1 & B1 & D2 & B2 & _).
      destruct Hwf as (Hs & _).
      eexists _, _, st'. split; [exact Hsel|].
      splits; try assumption; try (rewrite ?Hs; lia).
    + destruct (mix_iter_exists st0 Hwf0 Hc0 (Z.to_nat 131071)) as (st & Hit); [lia|].
      exists st. exact Hit.
    + intros i st Hit Hlt.
      destruct (mix_iter_step st0 i st Hwf0 Hc0 Hit Hlt) as (_ & Hhi & _). lia.
Qed.

(** C2, as the code has it.  In every iteration of the mixing pass the two
    big-endian integers that give [idx1] and [idx2] are read from the working
    buffer, at the offsets [i] and [i + 8] of the loop variable itself, which
    stay inside the buffer without any wrapping; the seed plays no part in
    the selection. *)
Theorem mixing_offsets_read_from_buffer
  (pk : list byte) (st0 : HashState) (i : Z) (st : HashState) :
  fill_phase hash_fuel pk = Ok st0 ->
  mix_iter st0 i st -> i < ztIdentityGenMemory ->
  0 <= i /\ i + 16 <= ztIdentityGenMemory /\
  mix_select i st =
    Ok (Z.land (be_uint64 (buf_read (genmem st) i 8)) 7 * 8,
        be_uint64 (buf_read (genmem st) (i + 8) 8) mod (ztIdentityGenMemory / 8) * 8,
        i + 16) /\
  forall seed,
    mix_select i (mkHashState seed (genmem st) (s20key st) (s20ctr st) (s20ctri st))
    = mix_select i st.
Proof.
  intros Hfill Hit Hlt.
  destruct (fill_inv_start pk st0 Hfill) as (Hwf0 & Hc0).
  destruct (mix_iter_step st0 i st Hwf0 Hc0 Hit Hlt) as (Hlo & Hhi & _).
  splits; [lia | lia | now apply mix_select_ok |].
  intros seed. now rewrite !mix_select_ok.
Qed.

End HashProperties.

(** ** The concrete interpretation has the assumed shapes *)

Lemma Stub_stream_length (k : Z) (inp : list byte) :
  length (Stub.stream k inp) = length inp.
Proof.
  revert k. induction inp as [|b inp IH]; intros k; simpl; [reflexivity|].
  now rewrite IH.
Qed.

Lemma Stub_Sum512_length (d : list byte) : length (Stub.Sum512 d) = 64%nat.
Proof. unfold Stub.Sum512. now rewrite Stub_stream_length. Qed.

Lemma Stub_XORKeyStream_length (inp ctr key : list byte) :
  length (Stub.XORKeyStream inp ctr key) = length inp.
Proof. unfold Stub.XORKeyStream. apply Stub_stream_length. Qed.

Lemma Stub_ed25519_public_length (seed : list byte) :
  length (Stub.ed25519_public seed) = 32%nat.
Proof.
  unfold Stub.ed25519_public, zeros.
  rewrite length_take, length_app, length_replicate. lia.
Qed.

Lemma Stub_ScalarBaseMult_length (scalar : list byte) :
  length (Stub.ScalarBaseMult scalar) = 32%nat.
Proof.
  unfold Stub.ScalarBaseMult, zeros.
  rewrite length_take, length_app, length_replicate. lia.
Qed.

Lemma buf_read_sub (g : gmap Z byte) (off : Z) (k n m : nat) :
  (k + n <= m)%nat ->
  buf_read g (off + Z.of_nat k) n = take n (drop k (buf_read g off m)).
Proof.
  intros Hle. apply list_eq. intros j.
  destruct (Nat.lt_ge_cases j n) as [Hlt|Hge].
  - rewrite lookup_take_lt by assumption. rewrite lookup_drop.
    rewrite !buf_read_lookup by lia. do 2 f_equal. lia.
  - rewrite (proj2 (lookup_ge_None _ _)) by (rewrite buf_read_length; lia).
    symmetry. apply lookup_ge_None. rewrite length_take. lia.
Qed.

(** ** The hash under the all-zero keystream

    With [Stub.null_XORKeyStream] the working buffer stays zero, every
    iteration of the mixing pass selects the offsets 0 and 0, and two swaps
    in a row cancel: the digest is the seed. *)

Lemma buf_read_zeros (g : gmap Z byte) (off : Z) (n : nat) :
  (forall i, off <= i < off + Z.of_nat n -> buf_get g i = x00) ->
  buf_read g off n = zeros n.
Proof.
  revert off. induction n as [|n IH]; intros off H; [reflexivity|].
  cbn [buf_read]. rewrite H by lia. rewrite IH; [reflexivity|].
  intros i Hi. apply H. lia.
Qed.

(** What holds at the head of iteration [j] of the mixing loop under the
    all-zero keystream, [seed] being the SHA-512 seed. *)
Definition null_inv (seed : list byte) (j : Z) (st : HashState) : Prop :=
  wf_state st /\
  s20ctri st = 32768 + j /\
  (forall off, 8 <= off < ztIdentityGenMemory -> buf_get (genmem st) off = x00) /\
  if Z.even j
  then s512 st = seed /\ buf_read (genmem st) 0 8 = zeros 8
  else s512 st = zeros 8 ++ drop 8 seed /\ buf_read (genmem st) 0 8 = take 8 seed.

Section NullCipher.

Variable Sum512 : list byte -> list byte.
Hypothesis Sum512_length : forall d, length (Sum512 d) = 64%nat.

Lemma null_XORKeyStream_length (inp ctr key : list byte) :
  length (Stub.null_XORKeyStream inp ctr key) = length inp.
Proof. reflexivity. Qed.

Lemma null_fill_blocks (pk : list byte) (st : HashState) :
  fill_inv Sum512 Stub.null_XORKeyStream pk 32768 st ->
  forall n : nat, Z.of_nat n < 32768 -> block (genmem st) (Z.of_nat n) = zeros 64.
Proof.
  intros (_ & _ & _ & _ & _ & H0 & Hk). induction n as [|n IH]; intros Hn.
  - exact H0.
  - rewrite Hk by lia. unfold Stub.null_XORKeyStream.
    replace (Z.of_nat (S n) - 1) with (Z.of_nat n) by lia. apply IH. lia.
Qed.

Lemma null_fill_zero (pk : list byte) (st : HashState) :
  fill_inv Sum512 Stub.null_XORKeyStream pk 32768 st ->
  forall off, 0 <= off < ztIdentityGenMemory -> buf_get (genmem st) off = x00.
Proof.
  intros Hinv off Hoff. rewrite genmem_value in Hoff.
  pose proof (Z.div_mod off 64 ltac:(lia)) as Hdm.
  pose proof (Z.mod_pos_bound off 64 ltac:(lia)) as Hr.
  assert (Hq : 0 <= off / 64 < 32768).
  { split; [apply Z.div_pos; lia | apply Z.div_lt_upper_bound; lia]. }
  pose proof (null_fill_blocks pk st Hinv (Z.to_nat (off / 64))) as Hb.
  rewrite Z2Nat.id in Hb by lia. specialize (Hb ltac:(lia)).
  assert (Hl : block (genmem st) (off / 64) !! Z.to_nat (off mod 64)
               = Some (buf_get (genmem st) off)).
  { unfold block. rewrite buf_read_lookup by lia. do 2 f_equal. lia. }
  rewrite Hb in Hl. unfold zeros in Hl.
  apply lookup_replicate in Hl as [Hl _]. congruence.
Qed.

Lemma null_inv_start (pk : list byte) (st : HashState) :
  fill_inv Sum512 Stub.null_XORKeyStream pk 32768 st ->
  null_inv (Sum512 pk) 0 st.
Proof.
  intros Hinv. pose proof Hinv as (Hwf & Hs & _ & _ & Hc & _).
  unfold null_inv. change (Z.even 0) with true. cbv iota.
  splits; auto.
  - intros off Hoff. apply (null_fill_zero pk st Hinv). lia.
  - apply buf_read_zeros. intros i Hi.
    apply (null_fill_zero pk st Hinv). rewrite genmem_value. lia.
Qed.

Lemma null_mix_body (seed : list byte) (j : Z) (st : HashState) :
  length seed = 64%nat ->
  null_inv seed j st -> 0 <= j < 131072 ->
  exists st',
    mix_body Stub.null_XORKeyStream (16 * j) st = Ok (16 * j + 16, st') /\
    null_inv seed (j + 1) st'.
Proof.
  intros Hseed (Hwf & Hc & Hzero & Hpar) Hj.
  assert (Hlo : 0 <= 16 * j) by lia.
  assert (Hhi : 16 * j + 16 <= ztIdentityGenMemory) by (rewrite genmem_value; lia).
  destruct (mix_body_ok Stub.null_XORKeyStream null_XORKeyStream_length
              (16 * j) st Hwf Hlo Hhi) as (st' & Hbody & Hwf' & Hc').
  exists st'. split; [exact Hbody|].
  assert (Hr2 : buf_read (genmem st) (16 * j + 8) 8 = zeros 8).
  { apply buf_read_zeros. intros i Hi. apply Hzero. rewrite genmem_value. lia. }
  assert (Hr1 : buf_read (genmem st) (16 * j) 8 = zeros 8).
  { destruct (Z.eq_dec j 0) as [->|Hne].
    - change (Z.even 0) with true in Hpar. cbv iota in Hpar. apply Hpar.
    - apply buf_read_zeros. intros i Hi. apply Hzero. rewrite genmem_value. lia. }
  assert (Hexp : mix_body Stub.null_XORKeyStream (16 * j) st =
            Ok (16 * j + 16,
                mkHashState
                  (buf_read (genmem st) 0 8 ++ drop 8 (s512 st))
                  (buf_write (genmem st) 0 (take 8 (s512 st)))
                  (s20key st)
                  (take 8 (s20ctr st) ++ le_bytes64 (s20ctri st))
                  (wrap64 (s20ctri st + 1)))).
  { unfold mix_body.
    rewrite mix_select_ok by assumption. rewrite Hr1, Hr2.
    change (Z.land (be_uint64 (zeros 8)) 7 * 8) with 0.
    change (be_uint64 (zeros 8) mod (ztIdentityGenMemory / 8) * 8) with 0.
    rewrite bind_Ok. cbv beta iota.
    rewrite mix_swap_ok by (rewrite ?genmem_value; auto; lia).
    rewrite bind_Ok. reflexivity. }
  rewrite Hexp in Hbody.
  assert (Hst : st' = mkHashState
                  (buf_read (genmem st) 0 8 ++ drop 8 (s512 st))
                  (buf_write (genmem st) 0 (take 8 (s512 st)))
                  (s20key st)
                  (take 8 (s20ctr st) ++ le_bytes64 (s20ctri st))
                  (wrap64 (s20ctri st + 1))) by congruence.
  clear Hbody Hexp. subst st'.
  unfold null_inv. cbn [s512 genmem s20ctri].
  split; [exact Hwf'|]. split.
  { cbn [s20ctri] in Hc'. rewrite wrap64_small; lia. }
  split.
  { intros off Hoff. rewrite buf_get_write_outside; [auto|].
    rewrite length_take. lia. }
  destruct Hwf as (Hls & _).
  assert (Hlt : length (take 8 (s512 st)) = 8%nat) by (rewrite length_take; lia).
  replace (j + 1) with (Z.succ j) by lia. rewrite Z.even_succ, <- Z.negb_even.
  destruct (Z.even j); cbn [negb]; destruct Hpar as [Hs Hg]; rewrite Hg.
  - split; [now rewrite Hs|].
    rewrite <- Hlt at 2. rewrite buf_read_write_same. now rewrite Hs.
  - split.
    + rewrite Hs. rewrite drop_app_length'; [apply take_drop | reflexivity].
    + rewrite <- Hlt at 2. rewrite buf_read_write_same. rewrite Hs.
      rewrite take_app_length'; reflexivity.
Qed.

Lemma null_mix_loop (seed : list byte) (fuel : nat) :
  length seed = 64%nat ->
  forall j st,
    null_inv seed j st -> 0 <= j <= 131072 -> 131072 - j <= Z.of_nat fuel ->
    exists st', mix_loop Stub.null_XORKeyStream fuel (16 * j) st = Ok st' /\
                null_inv seed 131072 st'.
Proof.
  intros Hseed. induction fuel as [|fuel IH]; intros j st Hinv Hj Hfuel;
    rewrite mix_loop_unfold.
  - assert (j = 131072) as -> by lia.
    change (16 * 131072 <? ztIdentityGenMemory) with false. eauto.
  - destruct (Z.ltb_spec (16 * j) ztIdentityGenMemory) as [Hlt|Hge].
    + rewrite genmem_value in Hlt.
      destruct (null_mix_body seed j st Hseed Hinv) as (st1 & Hb & Hinv1); [lia|].
      rewrite Hb, bind_Ok.
      replace (16 * j + 16) with (16 * (j + 1)) by lia.
      apply IH; [assumption | lia | lia].
    + rewrite genmem_value in Hge. assert (j = 131072) as -> by lia. eauto.
Qed.

(** Under the all-zero keystream the digest is the seed. *)
Lemma null_hash (pk : list byte) :
  computeZeroTierIdentityMemoryHardHash Sum512 Stub.null_XORKeyStream pk
  = Ok (Sum512 pk).
Proof.
  unfold computeZeroTierIdentityMemoryHardHash, memoryHardHash_fuel, hash_run.
  destruct (fill_phase_ok Sum512 Stub.null_XORKeyStream Sum512_length
              null_XORKeyStream_length pk hash_fuel) as (st0 & Hfill & Hinv);
    [rewrite hash_fuel_value; lia |].
  rewrite Hfill, bind_Ok.
  destruct (null_mix_loop (Sum512 pk) hash_fuel (Sum512_length pk) 0 st0)
    as (st & Hmix & Hfinal);
    [now apply null_inv_start | lia | rewrite hash_fuel_value; lia |].
  change (16 * 0) with 0 in Hmix. rewrite Hmix, bind_Ok.
  destruct Hfinal as (_ & _ & _ & Hpar).
  change (Z.even 131072) with true in Hpar. cbv iota in Hpar.
  now destruct Hpar as [-> _].
Qed.

End NullCipher.

(** ** The hash claims on a concrete input *)

Lemma fill_is_sequential_witness :
  exists st,
    fill_phase Stub.Sum512 Stub.XORKeyStream hash_fuel (zeros 64) = Ok st /\
    block (genmem st) 0
      = Stub.XORKeyStream (zeros 64)
          (counter_block (nonce_of Stub.Sum512 (zeros 64)) 0)
          (key_of Stub.Sum512 (zeros 64)) /\
    forall k, 1 <= k < ztIdentityGenMemory / 64 ->
      block (genmem st) k
      = Stub.XORKeyStream (block (genmem st) (k - 1))
          (counter_block (nonce_of Stub.Sum512 (zeros 64)) k)
          (key_of Stub.Sum512 (zeros 64)).
Proof.
  apply fill_is_sequential.
  - apply Stub_Sum512_length.
  - apply Stub_XORKeyStream_length.
Defined.

Lemma mixing_pass_reencryptions_witness :
  exists st0 st,
    fill_phase Stub.Sum512 Stub.XORKeyStream hash_fuel (zeros 64) = Ok st0 /\
    s20ctri st0 = ztIdentityGenMemory / 64 /\
    mix_loop Stub.XORKeyStream hash_fuel 0 st0 = Ok st /\
    s20ctri st - s20ctri st0 = ztIdentityGenMemory / 16 /\
    (forall j, 0 <= j < ztIdentityGenMemory / 16 ->
               exists st1, mix_iter Stub.XORKeyStream st0 (16 * j) st1) /\
    forall i st1,
      mix_iter Stub.XORKeyStream st0 i st1 -> i < ztIdentityGenMemory ->
      exists j idx1 idx2 st2,
        i = 16 * j /\ 0 <= j < ztIdentityGenMemory / 16 /\
        s20ctri st1 = ztIdentityGenMemory / 64 + j /\
        mix_select i st1 = Ok (idx1, idx2, i + 16) /\
        mix_body Stub.XORKeyStream i st1 = Ok (i + 16, st2) /\
        s20ctri st2 = s20ctri st1 + 1 /\
        buf_read (genmem st2) idx2 8 = take 8 (drop (Z.to_nat idx1) (s512 st1)) /\
        (forall off, off < idx2 \/ idx2 + 8 <= off ->
                     buf_get (genmem st2) off = buf_get (genmem st1) off) /\
        length (s512 st1) = 64%nat /\
        s512 st2 =
          Stub.XORKeyStream
            (take (Z.to_nat idx1) (s512 st1)
             ++ buf_read (genmem st1) idx2 8
             ++ drop (Z.to_nat idx1 + 8) (s512 st1))
            (counter_block (nonce_of Stub.Sum512 (zeros 64))
               (ztIdentityGenMemory / 64 + j))
            (key_of Stub.Sum512 (zeros 64)).
Proof.
  apply mixing_pass_reencryptions.
  - apply Stub_Sum512_length.
  - apply Stub_XORKeyStream_length.
Defined.

(** C5 as it is worded fails on the code: on the all-zero key the first
    iteration of the mixing pass moves the loop variable from 0 to 16 with a
    single re-encryption, and the re-encryptions of the whole pass are not
    2097152 / 8. *)
Lemma mixing_pass_reencryptions_counterexample :
  exists st0 st1 st,
    fill_phase Stub.Sum512 Stub.XORKeyStream hash_fuel (zeros 64) = Ok st0 /\
    mix_body Stub.XORKeyStream 0 st0 = Ok (16, st1) /\
    s20ctri st1 = s20ctri st0 + 1 /\
    mix_loop Stub.XORKeyStream hash_fuel 0 st0 = Ok st /\
    s20ctri st - s20ctri st0 <> ztIdentityGenMemory / 8.
Proof.
  destruct (hash_run_ok Stub.Sum512 Stub.XORKeyStream
              Stub_Sum512_length Stub_XORKeyStream_length (zeros 64) hash_fuel)
    as (st0 & st & Hfill & Hinv & Hmix & _ & _ & Hc & _);
    [rewrite hash_fuel_value; lia |].
  destruct (fill_inv_start Stub.Sum512 Stub.XORKeyStream
              Stub_Sum512_length Stub_XORKeyStream_length _ _ Hfill) as (Hwf0 & Hc0).
  destruct (mix_iter_step Stub.XORKeyStream Stub_XORKeyStream_length
              st0 0 st0 Hwf0 Hc0 (mix_iter_first _ _)) as (_ & _ & _ & st1 & Hb & Hc1);
    [reflexivity |].
  exists st0, st1, st. splits; try assumption.
  rewrite Hc, Hc0. discriminate.
Qed.

Lemma memory_hard_hash_deterministic_witness :
  exists d,
    length d = 64%nat /\
    computeZeroTierIdentityMemoryHardHash Stub.Sum512 Stub.XORKeyStream (zeros 64) = Ok d /\
    forall fuel d',
      memoryHardHash_fuel Stub.Sum512 Stub.XORKeyStream fuel (zeros 64) = Ok d' -> d' = d.
Proof.
  apply memory_hard_hash_deterministic.
  - apply Stub_Sum512_length.
  - apply Stub_XORKeyStream_length.
  - reflexivity.
Defined.

Lemma mixing_accesses_in_bounds_witness :
  (exists dig,
      computeZeroTierIdentityMemoryHardHash Stub.Sum512 Stub.XORKeyStream (zeros 64)
      = Ok dig) /\
  exists st0,
    fill_phase Stub.Sum512 Stub.XORKeyStream hash_fuel (zeros 64) = Ok st0 /\
    (forall i st,
        mix_iter Stub.XORKeyStream st0 i st -> i < ztIdentityGenMemory ->
        0 <= i /\ (i + 8) + 8 <= ztIdentityGenMemory /\
        exists idx1 idx2 st',
          mix_select i st = Ok (idx1, idx2, i + 16) /\
          (8 | idx1) /\ 0 <= idx1 <= 56 /\
          idx1 + 8 <= Z.of_nat (length (s512 st)) /\
          (8 | idx2) /\ 0 <= idx2 <= ztIdentityGenMemory - 8 /\
          mix_body Stub.XORKeyStream i st = Ok (i + 16, st')) /\
    (exists st, mix_iter Stub.XORKeyStream st0 (ztIdentityGenMemory - 16) st) /\
    (forall i st, mix_iter Stub.XORKeyStream st0 i st -> i < ztIdentityGenMemory ->
                  i <= ztIdentityGenMemory - 16).
Proof.
  apply mixing_accesses_in_bounds.
  - apply Stub_Sum512_length.
  - apply Stub_XORKeyStream_length.
Defined.

Lemma mixing_offsets_read_from_buffer_witness :
  exists st0,
    fill_phase Stub.Sum512 Stub.XORKeyStream hash_fuel (zeros 64) = Ok st0 /\
    mix_iter Stub.XORKeyStream st0 0 st0 /\
    0 < ztIdentityGenMemory /\
    mix_select 0 st0 =
      Ok (Z.land (be_uint64 (buf_read (genmem st0) 0 8)) 7 * 8,
          be_uint64 (buf_read (genmem st0) (0 + 8) 8) mod (ztIdentityGenMemory / 8) * 8,
          0 + 16).
Proof.
  destruct (fill_phase_ok Stub.Sum512 Stub.XORKeyStream
              Stub_Sum512_length Stub_XORKeyStream_length (zeros 64) hash_fuel)
    as (st0 & Hfill & _); [rewrite hash_fuel_value; lia |].
  exists st0.
  split; [exact Hfill|].
  split; [constructor|].
  split; [reflexivity|].
  exact (proj1 (proj2 (proj2
    (mixing_offsets_read_from_buffer Stub.Sum512 Stub.XORKeyStream
       Stub_Sum512_length Stub_XORKeyStream_length
       (zeros 64) st0 0 st0 Hfill (mix_iter_first _ _) eq_refl)))).
Defined.

(** C2 as it is worded fails on the code: on the all-zero key the first
    iteration selects the offsets 40 and 2093096, which the first 16 bytes of
    the working buffer give; the seed, read at the same place, would give 8
    and 1774408. *)
Lemma mixing_offsets_counterexample :
  exists st0,
    fill_phase Stub.Sum512 Stub.XORKeyStream hash_fuel (zeros 64) = Ok st0 /\
    mix_select 0 st0 = Ok (40, 2093096, 16) /\
    spec_mix_select 0 st0 = (8, 1774408).
Proof.
  destruct (fill_phase_ok Stub.Sum512 Stub.XORKeyStream
              Stub_Sum512_length Stub_XORKeyStream_length (zeros 64) hash_fuel)
    as (st0 & Hfill & Hinv); [rewrite hash_fuel_value; lia |].
  destruct Hinv as (_ & Hs & _ & _ & _ & H0 & _).
  exists st0. split; [exact Hfill|]. split.
  - rewrite mix_select_ok by (rewrite ?genmem_value; lia).
    change (buf_read (genmem st0) 0 8)
      with (buf_read (genmem st0) (0 + Z.of_nat 0) 8).
    change (buf_read (genmem st0) (0 + 8) 8)
      with (buf_read (genmem st0) (0 + Z.of_nat 8) 8).
    rewrite !(buf_read_sub _ 0 _ 8 64) by lia.
    change (buf_read (genmem st0) 0 64) with (block (genmem st0) 0).
    rewrite H0. vm_compute. reflexivity.
  - unfold spec_mix_select. rewrite Hs. vm_compute. reflexivity.
Qed.

(** ** Key generation and mining *)

Lemma bind_Panic {A B : Type} (p : PanicValue) (k : A -> Result B) :
  (Panic p ≫= k) = Panic p.
Proof. reflexivity. Qed.

Lemma bind_OutOfFuel {A B : Type} (k : A -> Result B) :
  (OutOfFuel ≫= k) = OutOfFuel.
Proof. reflexivity. Qed.

Lemma bind_Ok_inv {A B : Type} (m : Result A) (k : A -> Result B) (b : B) :
  (m ≫= k) = Ok b -> exists a, m = Ok a /\ k a = Ok b.
Proof. destruct m as [a| |]; [eauto | discriminate | discriminate]. Qed.

Lemma lor_shiftl_byte (a b : Z) :
  0 <= a -> 0 <= b < 256 -> Z.lor (Z.shiftl a 8) b = 256 * a + b.
Proof.
  intros Ha Hb. rewrite <- Z.add_nocarry_lor.
  - rewrite Z.shiftl_mul_pow2 by lia. lia.
  - rewrite <- (Z.mod_small b (2 ^ 8)) by lia.
    rewrite <- Z.land_ones by lia.
    rewrite (Z.land_comm b), Z.land_assoc, Z.land_ones by lia.
    rewrite Z.shiftl_mul_pow2 by lia.
    rewrite Z.mod_mul by lia. apply Z.land_0_l.
Qed.

(** The shifts and ors of lines 112-120 spell the big-endian integer of the
    five bytes, and nothing is lost in the 64-bit register. *)
Lemma address_of_be_uint (d59 d60 d61 d62 d63 : byte) :
  address_of d59 d60 d61 d62 d63 = be_uint [d59; d60; d61; d62; d63] /\
  0 <= address_of d59 d60 d61 d62 d63 < 2 ^ 40.
Proof.
  pose proof (byte_to_Z_range d59). pose proof (byte_to_Z_range d60).
  pose proof (byte_to_Z_range d61). pose proof (byte_to_Z_range d62).
  pose proof (byte_to_Z_range d63).
  unfold address_of, be_uint. cbn [fold_left]. cbv zeta.
  generalize dependent (byte_to_Z d59). generalize dependent (byte_to_Z d60).
  generalize dependent (byte_to_Z d61). generalize dependent (byte_to_Z d62).
  generalize dependent (byte_to_Z d63).
  intros e He d Hd c Hc b Hb a Ha.
  assert (Hstep : forall x y, 0 <= x < 2 ^ 32 -> 0 <= y < 256 ->
            Z.lor (wrap64 (Z.shiftl x 8)) y = 256 * x + y).
  { intros x y Hx Hy. rewrite wrap64_small.
    - apply lor_shiftl_byte; lia.
    - rewrite Z.shiftl_mul_pow2 by lia. lia. }
  rewrite (Hstep a b) by lia.
  rewrite (Hstep (256 * a + b) c) by lia.
  rewrite (Hstep (256 * (256 * a + b) + c) d) by lia.
  rewrite (Hstep (256 * (256 * (256 * a + b) + c) + d) e) by lia.
  split; lia.
Qed.

Lemma io_ReadFull_supplied (bs : list byte) (r : Reader) (n : nat) :
  length bs = n -> io_ReadFull (Supplied bs :: r) n = (Some bs, r).
Proof. intros <-. unfold io_ReadFull. now rewrite Nat.eqb_refl. Qed.

Lemma io_ReadFull_short (bs : list byte) (r : Reader) (n : nat) :
  length bs <> n -> io_ReadFull (Supplied bs :: r) n = (None, r).
Proof.
  intros H. unfold io_ReadFull. now rewrite (proj2 (Nat.eqb_neq _ _) H).
Qed.

Section MiningProperties.

Variable Sum512 : list byte -> list byte.
Variable XORKeyStream : list byte -> list byte -> list byte -> list byte.
Variable ed25519_public : list byte -> list byte.
Variable curve25519_ScalarBaseMult : list byte -> list byte.

Hypothesis ed25519_public_length :
  forall seed, length (ed25519_public seed) = 32%nat.
Hypothesis ScalarBaseMult_length :
  forall scalar, length (curve25519_ScalarBaseMult scalar) = 32%nat.

Lemma generateDualPair_ok (seed scalar : list byte) (r : Reader) :
  length seed = 32%nat -> length scalar = 32%nat ->
  generateDualPair ed25519_public curve25519_ScalarBaseMult
    (Supplied seed :: Supplied scalar :: r)
  = Ok (curve25519_ScalarBaseMult scalar ++ ed25519_public seed, scalar ++ seed, r).
Proof.
  intros Hseed Hscalar.
  unfold generateDualPair, ed25519_GenerateKey.
  rewrite io_ReadFull_supplied by assumption. cbv beta iota zeta.
  rewrite io_ReadFull_supplied by assumption. cbv beta iota zeta.
  cbn [from_option fst snd].
  rewrite (copy_to_zeros_prefix 64 32 32 (curve25519_ScalarBaseMult scalar)),
          (copy_to_zeros_prefix 64 32 32 scalar)
    by (rewrite ?ScalarBaseMult_length; lia).
  rewrite (slice_ok (ed25519_public seed) 0 32),
          (slice_ok (seed ++ ed25519_public seed) 0 32)
    by (rewrite ?length_app, ?ed25519_public_length; lia).
  change (Z.to_nat (32 - 0)) with 32%nat. change (Z.to_nat 0) with 0%nat.
  rewrite !drop_0.
  rewrite (take_ge (ed25519_public seed)) by (rewrite ed25519_public_length; lia).
  rewrite (take_app_length' seed) by lia.
  rewrite !bind_Ok.
  rewrite copy_to_exact
    by (rewrite ?length_app, ?ScalarBaseMult_length, ?ed25519_public_length;
        unfold zeros; rewrite ?length_replicate; lia).
  rewrite !bind_Ok.
  rewrite copy_to_exact
    by (rewrite ?length_app; unfold zeros; rewrite ?length_replicate; lia).
  rewrite bind_Ok.
  change (Z.to_nat 32) with 32%nat. change (Z.to_nat 64) with 64%nat.
  rewrite !take_app_length' by (rewrite ?ScalarBaseMult_length; lia).
  rewrite !drop_ge
    by (rewrite length_app; unfold zeros; rewrite length_replicate,
          ?ScalarBaseMult_length; lia).
  rewrite !app_nil_r. reflexivity.
Qed.

(** When the second read fails, generation panics with the entropy message,
    whatever the first read did. *)
Lemma generateDualPair_scalar_read_fails (o : ReadOutcome) (r : Reader) :
  generateDualPair ed25519_public curve25519_ScalarBaseMult
    (o :: ReadFails :: r) = Panic NotEnoughEntropy.
Proof.
  unfold generateDualPair, ed25519_GenerateKey, io_ReadFull.
  destruct o as [bs|]; [destruct (length bs =? 32)%nat|]; reflexivity.
Qed.

(** When only the first read fails, the dropped error leaves nil keys, and
    slicing [k0pub[0:32]] panics with a run-time error. *)
Lemma generateDualPair_seed_read_fails (scalar : list byte) (r : Reader) :
  length scalar = 32%nat ->
  generateDualPair ed25519_public curve25519_ScalarBaseMult
    (ReadFails :: Supplied scalar :: r)
  = Panic (GoRuntimeError SliceBoundsOutOfRange).
Proof.
  intros Hscalar.
  unfold generateDualPair, ed25519_GenerateKey.
  change (io_ReadFull (ReadFails :: Supplied scalar :: r) 32)
    with (@None (list byte), Supplied scalar :: r).
  cbv beta iota zeta.
  rewrite io_ReadFull_supplied by assumption. cbv beta iota zeta.
  cbn [from_option fst snd].
  rewrite (copy_to_ok (zeros 64) (curve25519_ScalarBaseMult scalar) 0 32)
    by (unfold zeros; rewrite ?length_replicate; lia).
  rewrite bind_Ok. reflexivity.
Qed.

Lemma generateDualPair_inv (r : Reader) (pub priv : list byte) (r' : Reader) :
  generateDualPair ed25519_public curve25519_ScalarBaseMult r = Ok (pub, priv, r') ->
  exists seed scalar,
    r = Supplied seed :: Supplied scalar :: r' /\
    length seed = 32%nat /\ length scalar = 32%nat /\
    pub = curve25519_ScalarBaseMult scalar ++ ed25519_public seed /\
    priv = scalar ++ seed.
Proof.
  destruct r as [|o1 [|o2 r2]].
  - discriminate.
  - unfold generateDualPair, ed25519_GenerateKey, io_ReadFull.
    destruct o1 as [bs|]; [destruct (length bs =? 32)%nat|]; discriminate.
  - destruct o2 as [scalar|];
      [|rewrite generateDualPair_scalar_read_fails; discriminate].
    destruct (Nat.eqb_spec (length scalar) 32) as [Hscalar|Hscalar].
    + destruct o1 as [seed|];
        [|rewrite generateDualPair_seed_read_fails by assumption; discriminate].
      destruct (Nat.eqb_spec (length seed) 32) as [Hseed|Hseed].
      * rewrite generateDualPair_ok by assumption. intros [= <- <- <-].
        exists seed, scalar. auto.
      * unfold generateDualPair, ed25519_GenerateKey.
        rewrite io_ReadFull_short by assumption. cbv beta iota zeta.
        rewrite io_ReadFull_supplied by assumption. cbv beta iota zeta.
        cbn [from_option fst snd].
        rewrite (copy_to_ok (zeros 64) (curve25519_ScalarBaseMult scalar) 0 32)
          by (unfold zeros; rewrite ?length_replicate; lia).
        rewrite bind_Ok. discriminate.
    + unfold generateDualPair, ed25519_GenerateKey.
      destruct (io_ReadFull (o1 :: Supplied scalar :: r2) 32) as [[s1|] r1] eqn:E1;
        cbv beta iota zeta.
      * destruct o1 as [bs|]; [|discriminate].
        unfold io_ReadFull in E1. destruct (length bs =? 32)%nat; [|discriminate].
        injection E1 as <- <-.
        rewrite io_ReadFull_short by assumption. discriminate.
      * destruct o1 as [bs|]; unfold io_ReadFull in E1.
        -- destruct (length bs =? 32)%nat; [discriminate|].
           injection E1 as <-.
           rewrite io_ReadFull_short by assumption. discriminate.
        -- injection E1 as <-.
           rewrite io_ReadFull_short by assumption. discriminate.
Qed.

Lemma NewZeroTierIdentity_panic (fuel : nat) (r : Reader) (p : PanicValue) :
  generateDualPair ed25519_public curve25519_ScalarBaseMult r = Panic p ->
  NewZeroTierIdentity Sum512 XORKeyStream ed25519_public
    curve25519_ScalarBaseMult (S fuel) r = Panic p.
Proof.
  intros H. cbn [NewZeroTierIdentity]. now rewrite H.
Qed.

(** C1. Every identity the mining loop returns carries a public key whose
    memory-hard digest has a first byte below 17 and a byte 59 other than
    0xFF; its address is the big-endian integer of the digest bytes 59 to 63,
    fits in 40 bits, and is not zero. *)
Theorem mined_identity_meets_difficulty
  (fuel : nat) (r : Reader) (id : ZeroTierIdentity) (r' : Reader) :
  NewZeroTierIdentity Sum512 XORKeyStream ed25519_public
    curve25519_ScalarBaseMult fuel r = Ok (id, r') ->
  exists dig d0 d59 d60 d61 d62 d63,
    computeZeroTierIdentityMemoryHardHash Sum512 XORKeyStream (publicKey id) = Ok dig /\
    dig !! 0%nat = Some d0 /\
    dig !! 59%nat = Some d59 /\ dig !! 60%nat = Some d60 /\ dig !! 61%nat = Some d61 /\
    dig !! 62%nat = Some d62 /\ dig !! 63%nat = Some d63 /\
    byte_to_Z d0 < 17 /\
    byte_to_Z d59 <> 255 /\
    address id = be_uint [d59; d60; d61; d62; d63] /\
    0 <= address id < 2 ^ 40 /\
    address id <> 0.
Proof.
  revert r. induction fuel as [|fuel IH]; intros r H; [discriminate|].
  cbn [NewZeroTierIdentity] in H.
  apply bind_Ok_inv in H as ([[pub priv] r1] & Hgen & H). cbv beta iota in H.
  apply bind_Ok_inv in H as (dig & Hhash & H).
  apply bind_Ok_inv in H as (d0 & H0 & H).
  destruct (byte_to_Z d0 <? ztIdentityHashCashFirstByteLessThan) eqn:E0; [|eauto].
  apply bind_Ok_inv in H as (d59 & H59 & H).
  destruct (negb (byte_to_Z d59 =? 255)) eqn:E59; [|eauto].
  apply bind_Ok_inv in H as (d60 & H60 & H).
  apply bind_Ok_inv in H as (d61 & H61 & H).
  apply bind_Ok_inv in H as (d62 & H62 & H).
  apply bind_Ok_inv in H as (d63 & H63 & H).
  cbv zeta in H.
  destruct (negb (address_of d59 d60 d61 d62 d63 =? 0)) eqn:Ea; [|eauto].
  injection H as <- <-. cbn [publicKey address].
  apply index_ok in H0 as [_ H0]. apply index_ok in H59 as [_ H59].
  apply index_ok in H60 as [_ H60]. apply index_ok in H61 as [_ H61].
  apply index_ok in H62 as [_ H62]. apply index_ok in H63 as [_ H63].
  apply Z.ltb_lt in E0. apply negb_true_iff, Z.eqb_neq in E59.
  apply negb_true_iff, Z.eqb_neq in Ea.
  destruct (address_of_be_uint d59 d60 d61 d62 d63) as [Hbe Hrange].
  exists dig, d0, d59, d60, d61, d62, d63.
  splits; try assumption; try lia.
Qed.

(** C9. In every key pair the generator returns, bytes 0..31 of the public
    key are the Curve25519 public key of the scalar and bytes 32..63 the
    Ed25519 public key of the seed; the private key holds the scalar in
    bytes 0..31 and the seed in bytes 32..63.  The seed and the scalar are
    the two 32-byte reads of the random source, in this order. *)
Theorem dual_pair_layout (r : Reader) (pub priv : list byte) (r' : Reader) :
  generateDualPair ed25519_public curve25519_ScalarBaseMult r = Ok (pub, priv, r') ->
  exists seed scalar,
    r = Supplied seed :: Supplied scalar :: r' /\
    length pub = 64%nat /\ length priv = 64%nat /\
    take 32 pub = curve25519_ScalarBaseMult scalar /\
    drop 32 pub = ed25519_public seed /\
    take 32 priv = scalar /\
    drop 32 priv = seed.
Proof.
  intros H.
  destruct (generateDualPair_inv r pub priv r' H)
    as (seed & scalar & -> & Hseed & Hscalar & -> & ->).
  exists seed, scalar. splits.
  - reflexivity.
  - rewrite length_app, ScalarBaseMult_length, ed25519_public_length. reflexivity.
  - rewrite length_app. lia.
  - apply take_app_length'. now rewrite ScalarBaseMult_length.
  - apply drop_app_length'. now rewrite ScalarBaseMult_length.
  - now apply take_app_length'.
  - now apply drop_app_length'.
Qed.

(** C3, where the code departs from it.  When the read inside
    [ed25519.GenerateKey] fails and the next read succeeds, the discarded
    error is never reported: generation stops with a slice-bounds run-time
    panic, not with the entropy panic, and the mining loop passes that panic
    on. *)
Theorem seed_read_failure_is_not_an_entropy_panic :
  generateDualPair ed25519_public curve25519_ScalarBaseMult [ReadFails; Supplied (zeros 32)]
  = Panic (GoRuntimeError SliceBoundsOutOfRange) /\
  forall fuel,
    NewZeroTierIdentity Sum512 XORKeyStream ed25519_public
      curve25519_ScalarBaseMult (S fuel) [ReadFails; Supplied (zeros 32)]
    = Panic (GoRuntimeError SliceBoundsOutOfRange).
Proof.
  assert (H : generateDualPair ed25519_public curve25519_ScalarBaseMult
    [ReadFails; Supplied (zeros 32)]
              = Panic (GoRuntimeError SliceBoundsOutOfRange))
    by (now apply generateDualPair_seed_read_fails).
  split; [exact H|]. intros fuel. now apply NewZeroTierIdentity_panic.
Qed.

(** The parts of C3 the code does have: a failed read of the scalar stops
    generation with the entropy panic; any panic of the generator ends the
    mining loop at once, with no further attempt; and keys are returned only
    when both reads supplied their 32 bytes. *)
Lemma scalar_read_failure_aborts (fuel : nat) (o : ReadOutcome) (r : Reader) :
  generateDualPair ed25519_public curve25519_ScalarBaseMult
    (o :: ReadFails :: r) = Panic NotEnoughEntropy /\
  NewZeroTierIdentity Sum512 XORKeyStream ed25519_public
    curve25519_ScalarBaseMult (S fuel) (o :: ReadFails :: r) = Panic NotEnoughEntropy.
Proof.
  pose proof (generateDualPair_scalar_read_fails o r) as H.
  split; [exact H|]. now apply NewZeroTierIdentity_panic.
Qed.

End MiningProperties.

(** ** The string encodings *)

Lemma string_app_cons (c : ascii) (s1 s2 : string) :
  String c s1 +:+ s2 = String c (s1 +:+ s2).
Proof. reflexivity. Qed.

Lemma string_app_nil_l (s : string) : "" +:+ s = s.
Proof. reflexivity. Qed.

Lemma string_app_nil_r (s : string) : s +:+ "" = s.
Proof.
  induction s as [|c s IH]; [reflexivity|]. now rewrite string_app_cons, IH.
Qed.

Lemma string_app_assoc (s1 s2 s3 : string) :
  (s1 +:+ s2) +:+ s3 = s1 +:+ (s2 +:+ s3).
Proof.
  induction s1 as [|c s1 IH]; [reflexivity|]. now rewrite !string_app_cons, IH.
Qed.

Lemma string_length_app (s1 s2 : string) :
  String.length (s1 +:+ s2) = (String.length s1 + String.length s2)%nat.
Proof.
  induction s1 as [|c s1 IH]; [reflexivity|].
  rewrite string_app_cons. cbn [String.length]. now rewrite IH.
Qed.

Lemma all_lower_hex_app (s1 s2 : string) :
  all_lower_hex (s1 +:+ s2) = all_lower_hex s1 && all_lower_hex s2.
Proof.
  induction s1 as [|c s1 IH]; [reflexivity|].
  rewrite string_app_cons. cbn [all_lower_hex]. now rewrite IH, andb_assoc.
Qed.

Lemma list_ascii_of_string_app (s1 s2 : string) :
  list_ascii_of_string (s1 +:+ s2)
  = list_ascii_of_string s1 ++ list_ascii_of_string s2.
Proof.
  induction s1 as [|c s1 IH]; [reflexivity|].
  rewrite string_app_cons. cbn [list_ascii_of_string]. now rewrite IH.
Qed.

Lemma hex_value_snoc (s : string) (c : ascii) :
  hex_value (s +:+ String c "") = 16 * hex_value s + hex_digit_value c.
Proof.
  unfold hex_value. rewrite list_ascii_of_string_app, fold_left_app. reflexivity.
Qed.

Lemma digit_char_hex (d : Z) :
  0 <= d < 16 ->
  is_lower_hex (digit_char d) = true /\ hex_digit_value (digit_char d) = d.
Proof.
  intros H.
  assert (d = 0 \/ d = 1 \/ d = 2 \/ d = 3 \/ d = 4 \/ d = 5 \/ d = 6 \/ d = 7 \/
          d = 8 \/ d = 9 \/ d = 10 \/ d = 11 \/ d = 12 \/ d = 13 \/ d = 14 \/ d = 15)
    as Hcases by lia.
  repeat (destruct Hcases as [-> | Hcases]; [split; reflexivity|]).
  subst d. split; reflexivity.
Qed.

Lemma hex_fixed_length (n : nat) (v : Z) : String.length (hex_fixed n v) = n.
Proof.
  revert v. induction n as [|n IH]; intros v; [reflexivity|].
  cbn [hex_fixed]. rewrite string_length_app, IH. simpl. lia.
Qed.

Lemma hex_fixed_lower (n : nat) (v : Z) : all_lower_hex (hex_fixed n v) = true.
Proof.
  revert v. induction n as [|n IH]; intros v; [reflexivity|].
  cbn [hex_fixed]. rewrite all_lower_hex_app, IH. cbn [all_lower_hex andb].
  destruct (digit_char_hex (v mod 16)) as [-> _]; [|reflexivity].
  apply Z.mod_pos_bound. lia.
Qed.

Lemma hex_fixed_value (n : nat) (v : Z) :
  hex_value (hex_fixed n v) = v mod 16 ^ Z.of_nat n.
Proof.
  revert v. induction n as [|n IH]; intros v.
  - cbn. now rewrite Z.mod_1_r.
  - cbn [hex_fixed]. rewrite hex_value_snoc, IH.
    destruct (digit_char_hex (v mod 16)) as [_ ->];
      [apply Z.mod_pos_bound; lia |].
    rewrite Nat2Z.inj_succ, Z.pow_succ_r by lia.
    rewrite Z.rem_mul_r by lia. lia.
Qed.

Lemma pad_zeros_app (k : nat) (s1 s2 : string) :
  pad_zeros k (s1 +:+ s2) = pad_zeros k s1 +:+ s2.
Proof.
  induction k as [|k IH]; [reflexivity|].
  cbn [pad_zeros]. now rewrite string_app_cons, IH.
Qed.

Lemma hex_fixed_zero (k : nat) : hex_fixed k 0 = pad_zeros k "".
Proof.
  induction k as [|k IH]; [reflexivity|].
  cbn [hex_fixed]. change (0 / 16) with 0. change (0 mod 16) with 0.
  rewrite IH. clear IH.
  induction k as [|k IH]; [reflexivity|].
  cbn [pad_zeros]. now rewrite string_app_cons, IH.
Qed.

(** Padding a number written with enough digits gives it at full width. *)
Lemma pad_zeros_hex_fixed (k n : nat) (u : Z) :
  0 <= u < 16 ^ Z.of_nat n -> pad_zeros k (hex_fixed n u) = hex_fixed (k + n) u.
Proof.
  revert u. induction n as [|n IH]; intros u Hu.
  - assert (u = 0) as -> by (cbn in Hu; lia).
    rewrite Nat.add_0_r, (hex_fixed_zero k). reflexivity.
  - rewrite Nat.add_succ_r. cbn [hex_fixed].
    rewrite pad_zeros_app, IH; [reflexivity|].
    rewrite Nat2Z.inj_succ, Z.pow_succ_r in Hu by lia.
    split; [apply Z.div_pos; lia | apply Z.div_lt_upper_bound; lia].
Qed.

(** The digit loop writes [u] with as many digits as it needs, and no more. *)
Lemma fmt_hex_digits_fixed (fuel : nat) :
  forall u buf,
    0 <= u < 16 ^ Z.of_nat fuel -> (0 < fuel)%nat ->
    exists n,
      (1 <= n <= fuel)%nat /\
      u < 16 ^ Z.of_nat n /\
      (n = 1%nat \/ 16 ^ (Z.of_nat n - 1) <= u) /\
      fmt_hex_digits fuel u buf = hex_fixed n u +:+ buf.
Proof.
  induction fuel as [|fuel IH]; intros u buf Hu Hfuel; [lia|].
  cbn [fmt_hex_digits].
  destruct (Z.leb_spec 16 u) as [Hge|Hlt].
  - assert (Hfuel' : (0 < fuel)%nat).
    { destruct fuel; [cbn in Hu; lia | lia]. }
    rewrite Nat2Z.inj_succ, Z.pow_succ_r in Hu by lia.
    rewrite Z.shiftr_div_pow2 by lia. change (2 ^ 4) with 16.
    change 15 with (Z.ones 4). rewrite Z.land_ones by lia. change (2 ^ 4) with 16.
    destruct (IH (u / 16) (String (digit_char (u mod 16)) buf))
      as (n & Hn & Hlt & Hmin & Heq);
      [split; [apply Z.div_pos; lia | apply Z.div_lt_upper_bound; lia] | assumption |].
    exists (S n). split; [lia|]. split; [|split].
    + rewrite Nat2Z.inj_succ, Z.pow_succ_r by lia.
      pose proof (Z.mul_succ_div_gt u 16). lia.
    + right. replace (Z.of_nat (S n) - 1) with (Z.of_nat n) by lia.
      pose proof (Z.mul_div_le u 16).
      destruct Hmin as [-> | Hmin]; [cbn; lia|].
      replace (Z.of_nat n) with (Z.succ (Z.of_nat n - 1)) by lia.
      rewrite Z.pow_succ_r by lia. lia.
    + rewrite Heq. cbn [hex_fixed]. now rewrite string_app_assoc.
  - exists 1%nat. split; [lia|]. split; [change (16 ^ Z.of_nat 1) with 16; lia|].
    split; [now left|].
    cbn [hex_fixed]. rewrite string_app_nil_l, string_app_cons, string_app_nil_l.
    now rewrite Z.mod_small by lia.
Qed.

(** On a 40-bit value [%.10x] prints exactly ten digits. *)
Lemma fmt_x_prec_10 (a : Z) :
  0 <= a < 2 ^ 40 -> fmt_x_prec 10 a = hex_fixed 10 a.
Proof.
  intros Ha. unfold fmt_x_prec. cbn [Nat.eqb andb].
  destruct (fmt_hex_digits_fixed 16 a "")
    as (n & Hn & Hlt & Hmin & Heq); [cbn; lia | lia |].
  rewrite Heq.
  rewrite string_app_nil_r, hex_fixed_length.
  assert (Hn10 : (n <= 10)%nat).
  { destruct Hmin as [-> | Hmin]; [lia|].
    destruct (Nat.le_gt_cases n 10) as [|Hgt]; [assumption|].
    assert (16 ^ 10 <= 16 ^ (Z.of_nat n - 1)) by (apply Z.pow_le_mono_r; lia).
    change (16 ^ 10) with (2 ^ 40) in *. lia. }
  rewrite pad_zeros_hex_fixed by lia.
  replace (10 - n + n)%nat with 10%nat by lia. reflexivity.
Qed.

Lemma fmt_x_bytes_length (bs : list byte) :
  String.length (fmt_x_bytes bs) = (2 * length bs)%nat.
Proof.
  induction bs as [|b bs IH]; [reflexivity|].
  cbn [fmt_x_bytes String.length length]. rewrite IH. lia.
Qed.

Lemma byte_digits (b : byte) :
  0 <= Z.shiftr (byte_to_Z b) 4 < 16 /\ 0 <= Z.land (byte_to_Z b) 15 < 16 /\
  16 * Z.shiftr (byte_to_Z b) 4 + Z.land (byte_to_Z b) 15 = byte_to_Z b.
Proof.
  pose proof (byte_to_Z_range b) as H.
  rewrite Z.shiftr_div_pow2 by lia. change (2 ^ 4) with 16.
  change 15 with (Z.ones 4). rewrite Z.land_ones by lia. change (2 ^ 4) with 16.
  pose proof (Z.div_mod (byte_to_Z b) 16). pose proof (Z.mod_pos_bound (byte_to_Z b) 16).
  splits; lia.
Qed.

Lemma fmt_x_bytes_lower (bs : list byte) : all_lower_hex (fmt_x_bytes bs) = true.
Proof.
  induction bs as [|b bs IH]; [reflexivity|].
  destruct (byte_digits b) as (Hh & Hl & _).
  cbn [fmt_x_bytes all_lower_hex]. rewrite IH.
  destruct (digit_char_hex _ Hh) as [-> _].
  destruct (digit_char_hex _ Hl) as [-> _]. reflexivity.
Qed.

Lemma fmt_x_bytes_decode (bs : list byte) :
  hex_bytes (fmt_x_bytes bs) = map byte_to_Z bs.
Proof.
  induction bs as [|b bs IH]; [reflexivity|].
  destruct (byte_digits b) as (Hh & Hl & Hsum).
  cbn [fmt_x_bytes hex_bytes map]. rewrite IH.
  destruct (digit_char_hex _ Hh) as [_ ->].
  destruct (digit_char_hex _ Hl) as [_ ->]. now rewrite Hsum.
Qed.

(** C6. For an address of at most 40 bits the public string is the address
    as exactly ten zero-padded lowercase hexadecimal digits, then [":0:"],
    then the 64-byte public key as exactly 128 lowercase hexadecimal
    digits. *)
Theorem public_string_format (id : ZeroTierIdentity) :
  0 <= address id < 2 ^ 40 ->
  length (publicKey id) = 64%nat ->
  exists a k : string,
    PublicKeyString id = a +:+ ":0:" +:+ k /\
    a = hex_fixed 10 (address id) /\
    String.length a = 10%nat /\ all_lower_hex a = true /\ hex_value a = address id /\
    String.length k = 128%nat /\ all_lower_hex k = true /\
    hex_bytes k = map byte_to_Z (publicKey id).
Proof.
  intros Ha Hk.
  exists (hex_fixed 10 (address id)), (fmt_x_bytes (publicKey id)).
  splits.
  - unfold PublicKeyString. now rewrite fmt_x_prec_10.
  - reflexivity.
  - apply hex_fixed_length.
  - apply hex_fixed_lower.
  - rewrite hex_fixed_value. apply Z.mod_small.
    change (16 ^ Z.of_nat 10) with (2 ^ 40). lia.
  - rewrite fmt_x_bytes_length, Hk. reflexivity.
  - apply fmt_x_bytes_lower.
  - apply fmt_x_bytes_decode.
Qed.

(** C7. With a private key, the private string is the public string, then
    [":"], then the 64-byte private key as exactly 128 lowercase hexadecimal
    digits; without one it is the empty string, with no key digits at all. *)
Theorem private_string_format (id : ZeroTierIdentity) :
  (forall priv,
      privateKey id = Some priv -> length priv = 64%nat ->
      exists k : string,
        PrivateKeyString id = PublicKeyString id +:+ ":" +:+ k /\
        String.length k = 128%nat /\ all_lower_hex k = true /\
        hex_bytes k = map byte_to_Z priv) /\
  (privateKey id = None -> PrivateKeyString id = ""%string).
Proof.
  split.
  - intros priv Hpriv Hlen. exists (fmt_x_bytes priv). splits.
    + unfold PrivateKeyString, PublicKeyString. rewrite Hpriv.
      now rewrite !string_app_assoc.
    + rewrite fmt_x_bytes_length, Hlen. reflexivity.
    + apply fmt_x_bytes_lower.
    + apply fmt_x_bytes_decode.
  - intros Hnone. unfold PrivateKeyString. now rewrite Hnone.
Qed.

(** ** The claims on concrete inputs *)

Example fmt_x_prec_examples :
  fmt_x_prec 10 0 = "0000000000"%string /\
  fmt_x_prec 10 0x6944479a25 = "6944479a25"%string /\
  fmt_x_prec 10 (2 ^ 40) = "10000000000"%string.
Proof. repeat split; reflexivity. Qed.

Example private_string_example :
  PrivateKeyString (mkZeroTierIdentity 255 ["001"; "171"]%byte (Some ["205"]%byte))
  = "00000000ff:0:01ab:cd"%string /\
  PrivateKeyString (mkZeroTierIdentity 255 ["001"; "171"]%byte None) = ""%string.
Proof. split; reflexivity. Qed.

Lemma public_string_format_witness :
  exists a k : string,
    PublicKeyString Stub.example_identity = a +:+ ":0:" +:+ k /\
    a = hex_fixed 10 (address Stub.example_identity) /\
    String.length a = 10%nat /\ all_lower_hex a = true /\
    hex_value a = address Stub.example_identity /\
    String.length k = 128%nat /\ all_lower_hex k = true /\
    hex_bytes k = map byte_to_Z (publicKey Stub.example_identity).
Proof.
  apply public_string_format.
  - cbn. lia.
  - reflexivity.
Defined.

Lemma private_string_format_witness :
  exists k : string,
    PrivateKeyString Stub.example_identity
    = PublicKeyString Stub.example_identity +:+ ":" +:+ k /\
    String.length k = 128%nat /\ all_lower_hex k = true /\
    hex_bytes k = map byte_to_Z (Stub.example_scalar ++ Stub.example_seed).
Proof.
  apply (proj1 (private_string_format Stub.example_identity)); reflexivity.
Defined.

Lemma example_dual_pair :
  generateDualPair Stub.ed25519_public Stub.ScalarBaseMult Stub.example_reader
  = Ok (publicKey Stub.example_identity, Stub.example_scalar ++ Stub.example_seed, []).
Proof.
  apply generateDualPair_ok.
  - apply Stub_ed25519_public_length.
  - apply Stub_ScalarBaseMult_length.
  - reflexivity.
  - reflexivity.
Qed.

Lemma dual_pair_layout_witness :
  exists seed scalar,
    Stub.example_reader = [Supplied seed; Supplied scalar] /\
    length (publicKey Stub.example_identity) = 64%nat /\
    length (Stub.example_scalar ++ Stub.example_seed) = 64%nat /\
    take 32 (publicKey Stub.example_identity) = Stub.ScalarBaseMult scalar /\
    drop 32 (publicKey Stub.example_identity) = Stub.ed25519_public seed /\
    take 32 (Stub.example_scalar ++ Stub.example_seed) = scalar /\
    drop 32 (Stub.example_scalar ++ Stub.example_seed) = seed.
Proof.
  exact (dual_pair_layout Stub.ed25519_public Stub.ScalarBaseMult
           Stub_ed25519_public_length Stub_ScalarBaseMult_length
           _ _ _ _ example_dual_pair).
Defined.

(** The mining loop run on [Stub.example_retry_reader] under the all-zero
    keystream: the first candidate has the digest byte 0xe0 at 0 and is
    dropped; the second has 0x01 at 0 and 9e a5 ac b3 ba at 59..63. *)
Lemma example_mining_run :
  NewZeroTierIdentity Stub.Sum512 Stub.null_XORKeyStream Stub.ed25519_public
    Stub.ScalarBaseMult 2 Stub.example_retry_reader
  = Ok (Stub.example_identity, []).
Proof.
  cbn [NewZeroTierIdentity].
  unfold Stub.example_retry_reader.
  rewrite generateDualPair_ok
    by (first [apply Stub_ed25519_public_length
              | apply Stub_ScalarBaseMult_length | reflexivity]).
  rewrite bind_Ok. cbv beta iota.
  rewrite (null_hash Stub.Sum512 Stub_Sum512_length), bind_Ok.
  set (dig1 := Stub.Sum512 _).
  assert (Hd1 : index dig1 0 = Ok "224"%byte) by (vm_compute; reflexivity).
  rewrite Hd1, bind_Ok.
  change (byte_to_Z "224" <? ztIdentityHashCashFirstByteLessThan) with false.
  cbv iota. clear dig1 Hd1.
  rewrite example_dual_pair, bind_Ok. cbv beta iota.
  rewrite (null_hash Stub.Sum512 Stub_Sum512_length), bind_Ok.
  vm_compute. reflexivity.
Qed.

Lemma mined_identity_meets_difficulty_witness :
  NewZeroTierIdentity Stub.Sum512 Stub.null_XORKeyStream Stub.ed25519_public
    Stub.ScalarBaseMult 2 Stub.example_retry_reader
  = Ok (Stub.example_identity, []) /\
  exists dig d0 d59 d60 d61 d62 d63,
    computeZeroTierIdentityMemoryHardHash Stub.Sum512 Stub.null_XORKeyStream
      (publicKey Stub.example_identity) = Ok dig /\
    dig !! 0%nat = Some d0 /\
    dig !! 59%nat = Some d59 /\ dig !! 60%nat = Some d60 /\ dig !! 61%nat = Some d61 /\
    dig !! 62%nat = Some d62 /\ dig !! 63%nat = Some d63 /\
    byte_to_Z d0 < 17 /\
    byte_to_Z d59 <> 255 /\
    address Stub.example_identity = be_uint [d59; d60; d61; d62; d63] /\
    0 <= address Stub.example_identity < 2 ^ 40 /\
    address Stub.example_identity <> 0.
Proof.
  split; [exact example_mining_run|].
  exact (mined_identity_meets_difficulty
           Stub.Sum512 Stub.null_XORKeyStream Stub.ed25519_public Stub.ScalarBaseMult
           2 Stub.example_retry_reader Stub.example_identity [] example_mining_run).
Defined.

(** * Further properties of the code *)

(** ** The hash *)

Section HashExtras.

Variable Sum512 : list byte -> list byte.
Variable XORKeyStream : list byte -> list byte -> list byte -> list byte.

Hypothesis Sum512_length : forall d, length (Sum512 d) = 64%nat.
Hypothesis XORKeyStream_length :
  forall inp ctr key, length (XORKeyStream inp ctr key) = length inp.

Lemma fill_phase_inv (pk : list byte) (st0 : HashState) :
  fill_phase Sum512 XORKeyStream hash_fuel pk = Ok st0 ->
  fill_inv Sum512 XORKeyStream pk 32768 st0.
Proof.
  intros Hfill.
  destruct (fill_phase_ok Sum512 XORKeyStream Sum512_length XORKeyStream_length
              pk hash_fuel) as (st & Hfill' & Hinv);
    [rewrite hash_fuel_value; lia |].
  congruence.
Qed.

(** The key and the nonce stay what the seed gave, all through the mixing
    pass. *)
Lemma mix_iter_keys (pk : list byte) (st0 : HashState) (i : Z) (st : HashState) :
  fill_inv Sum512 XORKeyStream pk 32768 st0 ->
  mix_iter XORKeyStream st0 i st ->
  s20key st = key_of Sum512 pk /\ take 8 (s20ctr st) = nonce_of Sum512 pk.
Proof.
  intros Hinv Hit. eapply mix_iter_key_nonce; eauto.
Qed.

(** Every re-encryption of the mixing pass uses a keystream counter of its
    own: iteration [i / 16] encrypts the 64-byte seed with the key of the fill
    phase at the counter [32768 + i / 16], past the counters 0..32767 that
    the fill phase used. *)
Theorem mixing_counters_continue
  (pk : list byte) (st0 : HashState) (i : Z) (st : HashState) :
  fill_phase Sum512 XORKeyStream hash_fuel pk = Ok st0 ->
  mix_iter XORKeyStream st0 i st -> i < ztIdentityGenMemory ->
  exists inp st',
    length inp = 64%nat /\
    mix_body XORKeyStream i st = Ok (i + 16, st') /\
    s512 st' =
      XORKeyStream inp
        (counter_block (nonce_of Sum512 pk) (ztIdentityGenMemory / 64 + i / 16))
        (key_of Sum512 pk).
Proof.
  intros Hfill Hit Hlt.
  pose proof (fill_phase_inv pk st0 Hfill) as Hinv.
  pose proof Hinv as (Hwf0 & _ & _ & _ & Hc0 & _).
  destruct (mix_iter_keys pk st0 i st Hinv Hit) as (Hk & Hn).
  destruct (mix_iter_inv XORKeyStream XORKeyStream_length st0 i st Hwf0 Hc0 Hit)
    as (j & -> & Hj & Hwf & Hc).
  rewrite genmem_value in Hlt.
  assert (Hlo : 0 <= 16 * j) by lia.
  assert (Hhi : 16 * j + 16 <= ztIdentityGenMemory) by (rewrite genmem_value; lia).
  pose proof (mix_select_ok (16 * j) st Hlo Hhi) as Hsel.
  destruct (mix_select_bounds (16 * j) st _ _ _ Hlo Hhi Hsel) as (_ & B1 & _ & B2 & _).
  unfold mix_body. rewrite Hsel, bind_Ok. cbv beta iota.
  rewrite (mix_swap_ok XORKeyStream) by assumption. rewrite bind_Ok.
  set (idx1 := Z.land _ 7 * 8) in *. set (idx2 := _ mod _ * 8) in *.
  exists (take (Z.to_nat idx1) (s512 st)
          ++ buf_read (genmem st) idx2 8
          ++ drop (Z.to_nat (idx1 + 8)) (s512 st)).
  eexists. split; [|split; [reflexivity|]].
  - destruct Hwf as (Hls & _).
    rewrite !length_app, length_take, buf_read_length, length_drop. lia.
  - cbn [s512]. unfold counter_block. rewrite Hk, Hn, Hc.
    replace (ztIdentityGenMemory / 64 + 16 * j / 16) with (32768 + j); [reflexivity|].
    rewrite (Z.mul_comm 16 j), Z.div_mul by lia. reflexivity.
Qed.

(** One iteration of the mixing pass exchanges 8 bytes: the buffer receives
    at [idx2] the 8 seed bytes that stood at [idx1], the seed that is then
    re-encrypted holds in their place the 8 buffer bytes, and every other
    byte of the buffer is left as it was. *)
Theorem mixing_iteration_swaps
  (pk : list byte) (st0 : HashState) (i : Z) (st : HashState) :
  fill_phase Sum512 XORKeyStream hash_fuel pk = Ok st0 ->
  mix_iter XORKeyStream st0 i st -> i < ztIdentityGenMemory ->
  exists idx1 idx2 st',
    mix_select i st = Ok (idx1, idx2, i + 16) /\
    mix_body XORKeyStream i st = Ok (i + 16, st') /\
    buf_read (genmem st') idx2 8 = take 8 (drop (Z.to_nat idx1) (s512 st)) /\
    (forall off, off < idx2 \/ idx2 + 8 <= off ->
                 buf_get (genmem st') off = buf_get (genmem st) off) /\
    s512 st' =
      XORKeyStream
        (take (Z.to_nat idx1) (s512 st)
         ++ buf_read (genmem st) idx2 8
         ++ drop (Z.to_nat idx1 + 8) (s512 st))
        (s20ctr st') (s20key st').
Proof.
  intros Hfill Hit Hlt.
  pose proof (fill_phase_inv pk st0 Hfill) as (Hwf0 & _ & _ & _ & Hc0 & _).
  destruct (mix_iter_step XORKeyStream XORKeyStream_length st0 i st Hwf0 Hc0 Hit Hlt)
    as (Hlo & Hhi & Hwf & _).
  pose proof (mix_select_ok i st Hlo Hhi) as Hsel.
  destruct (mix_select_bounds i st _ _ _ Hlo Hhi Hsel) as (_ & B1 & _ & B2 & _).
  eexists _, _, _. split; [exact Hsel|].
  unfold mix_body. rewrite Hsel, bind_Ok. cbv beta iota.
  rewrite (mix_swap_ok XORKeyStream) by assumption. rewrite bind_Ok.
  split; [reflexivity|]. cbn [genmem s512 s20ctr s20key].
  destruct Hwf as (Hls & _).
  set (idx1 := Z.land _ 7 * 8) in *. set (idx2 := _ mod _ * 8) in *.
  assert (Hlen : length (take 8 (drop (Z.to_nat idx1) (s512 st))) = 8%nat)
    by (rewrite length_take, length_drop; lia).
  splits.
  - pose proof (buf_read_write_same (genmem st) idx2
                  (take 8 (drop (Z.to_nat idx1) (s512 st)))) as Hrw.
    now rewrite Hlen in Hrw.
  - intros off Hoff. apply buf_get_write_outside. rewrite Hlen. lia.
  - replace (Z.to_nat (idx1 + 8)) with (Z.to_nat idx1 + 8)%nat by lia. reflexivity.
Qed.

(** The working buffer after the fill phase is a function of the key and
    the nonce alone, that is of the first 40 bytes of the seed. *)
Theorem fill_depends_on_key_and_nonce
  (pk1 pk2 : list byte) (st1 st2 : HashState) :
  key_of Sum512 pk1 = key_of Sum512 pk2 ->
  nonce_of Sum512 pk1 = nonce_of Sum512 pk2 ->
  fill_phase Sum512 XORKeyStream hash_fuel pk1 = Ok st1 ->
  fill_phase Sum512 XORKeyStream hash_fuel pk2 = Ok st2 ->
  forall k, 0 <= k < ztIdentityGenMemory / 64 ->
    block (genmem st1) k = block (genmem st2) k.
Proof.
  intros Hkey Hnonce Hf1 Hf2.
  pose proof (fill_phase_inv pk1 st1 Hf1) as (_ & _ & _ & _ & _ & H10 & H1k).
  pose proof (fill_phase_inv pk2 st2 Hf2) as (_ & _ & _ & _ & _ & H20 & H2k).
  change (ztIdentityGenMemory / 64) with 32768.
  assert (H : forall n : nat, Z.of_nat n < 32768 ->
            block (genmem st1) (Z.of_nat n) = block (genmem st2) (Z.of_nat n)).
  { induction n as [|n IH]; intros Hn.
    - change (Z.of_nat 0) with 0. rewrite H10, H20, Hkey, Hnonce. reflexivity.
    - rewrite H1k, H2k by lia.
      replace (Z.of_nat (S n) - 1) with (Z.of_nat n) by lia.
      rewrite IH by lia. rewrite Hkey, Hnonce. reflexivity. }
  intros k Hk. rewrite <- (Z2Nat.id k) by lia. apply H. lia.
Qed.

End HashExtras.

Lemma mixing_counters_continue_witness :
  exists st0,
    fill_phase Stub.Sum512 Stub.XORKeyStream hash_fuel (zeros 64) = Ok st0 /\
    exists inp st',
      length inp = 64%nat /\
      mix_body Stub.XORKeyStream 0 st0 = Ok (0 + 16, st') /\
      s512 st' =
        Stub.XORKeyStream inp
          (counter_block (nonce_of Stub.Sum512 (zeros 64))
             (ztIdentityGenMemory / 64 + 0 / 16))
          (key_of Stub.Sum512 (zeros 64)).
Proof.
  destruct (fill_phase_ok Stub.Sum512 Stub.XORKeyStream
              Stub_Sum512_length Stub_XORKeyStream_length (zeros 64) hash_fuel)
    as (st0 & Hfill & _); [rewrite hash_fuel_value; lia |].
  exists st0. split; [exact Hfill|].
  exact (mixing_counters_continue Stub.Sum512 Stub.XORKeyStream
           Stub_Sum512_length Stub_XORKeyStream_length
           (zeros 64) st0 0 st0 Hfill (mix_iter_first _ _) eq_refl).
Defined.

Lemma mixing_iteration_swaps_witness :
  exists st0,
    fill_phase Stub.Sum512 Stub.XORKeyStream hash_fuel (zeros 64) = Ok st0 /\
    exists idx1 idx2 st',
      mix_select 0 st0 = Ok (idx1, idx2, 0 + 16) /\
      mix_body Stub.XORKeyStream 0 st0 = Ok (0 + 16, st') /\
      buf_read (genmem st') idx2 8 = take 8 (drop (Z.to_nat idx1) (s512 st0)) /\
      (forall off, off < idx2 \/ idx2 + 8 <= off ->
                   buf_get (genmem st') off = buf_get (genmem st0) off) /\
      s512 st' =
        Stub.XORKeyStream
          (take (Z.to_nat idx1) (s512 st0)
           ++ buf_read (genmem st0) idx2 8
           ++ drop (Z.to_nat idx1 + 8) (s512 st0))
          (s20ctr st') (s20key st').
Proof.
  destruct (fill_phase_ok Stub.Sum512 Stub.XORKeyStream
              Stub_Sum512_length Stub_XORKeyStream_length (zeros 64) hash_fuel)
    as (st0 & Hfill & _); [rewrite hash_fuel_value; lia |].
  exists st0. split; [exact Hfill|].
  exact (mixing_iteration_swaps Stub.Sum512 Stub.XORKeyStream
           Stub_Sum512_length Stub_XORKeyStream_length
           (zeros 64) st0 0 st0 Hfill (mix_iter_first _ _) eq_refl).
Defined.

Lemma fill_depends_on_key_and_nonce_witness :
  exists st1 st2,
    fill_phase Stub.Sum512 Stub.XORKeyStream hash_fuel (zeros 64) = Ok st1 /\
    fill_phase Stub.Sum512 Stub.XORKeyStream hash_fuel (zeros 32) = Ok st2 /\
    forall k, 0 <= k < ztIdentityGenMemory / 64 ->
      block (genmem st1) k = block (genmem st2) k.
Proof.
  destruct (fill_phase_ok Stub.Sum512 Stub.XORKeyStream
              Stub_Sum512_length Stub_XORKeyStream_length (zeros 64) hash_fuel)
    as (st1 & Hf1 & _); [rewrite hash_fuel_value; lia |].
  destruct (fill_phase_ok Stub.Sum512 Stub.XORKeyStream
              Stub_Sum512_length Stub_XORKeyStream_length (zeros 32) hash_fuel)
    as (st2 & Hf2 & _); [rewrite hash_fuel_value; lia |].
  exists st1, st2. split; [exact Hf1|]. split; [exact Hf2|].
  exact (fill_depends_on_key_and_nonce Stub.Sum512 Stub.XORKeyStream
           Stub_Sum512_length Stub_XORKeyStream_length
           (zeros 64) (zeros 32) st1 st2 eq_refl eq_refl Hf1 Hf2).
Defined.

(** ** The string encodings, for every 64-bit address *)

(** [%.10x] writes a 64-bit value with the digits it needs, ten at least. *)
Lemma fmt_x_prec_10_digits (a : Z) :
  0 <= a < 2 ^ 64 ->
  exists n,
    (10 <= n <= 16)%nat /\
    fmt_x_prec 10 a = hex_fixed n a /\
    a < 16 ^ Z.of_nat n /\
    (n = 10%nat \/ 16 ^ (Z.of_nat n - 1) <= a).
Proof.
  intros Ha. unfold fmt_x_prec. cbn [Nat.eqb andb].
  destruct (fmt_hex_digits_fixed 16 a "")
    as (n & Hn & Hlt & Hmin & Heq);
    [change (16 ^ Z.of_nat 16) with (2 ^ 64); lia | lia |].
  rewrite Heq, string_app_nil_r, hex_fixed_length.
  rewrite pad_zeros_hex_fixed by lia.
  exists (10 - n + n)%nat. split; [lia|]. split; [reflexivity|].
  destruct (Nat.le_gt_cases n 10) as [Hle|Hgt].
  - replace (10 - n + n)%nat with 10%nat by lia. split; [|now left].
    assert (16 ^ Z.of_nat n <= 16 ^ Z.of_nat 10) by (apply Z.pow_le_mono_r; lia).
    lia.
  - replace (10 - n + n)%nat with n by lia. split; [assumption|].
    right. destruct Hmin as [-> | Hmin]; [lia | assumption].
Qed.

Lemma id_string_spells_address_aux (id : ZeroTierIdentity) :
  0 <= address id < 2 ^ 64 ->
  hex_value (IDString id) = address id /\ all_lower_hex (IDString id) = true.
Proof.
  intros Ha. unfold IDString.
  destruct (fmt_x_prec_10_digits (address id) Ha) as (n & Hn & -> & Hlt & Hmin).
  rewrite hex_fixed_value, hex_fixed_lower. split; [|reflexivity].
  apply Z.mod_small. lia.
Qed.

(** The address string never loses a digit: for every 64-bit address it
    spells the address in lowercase hexadecimal, in 10 to 16 digits, and in
    exactly 10 if and only if the address is below 2^40. *)
Theorem id_string_spells_address (id : ZeroTierIdentity) :
  0 <= address id < 2 ^ 64 ->
  hex_value (IDString id) = address id /\
  all_lower_hex (IDString id) = true /\
  (10 <= String.length (IDString id) <= 16)%nat /\
  (String.length (IDString id) = 10%nat <-> address id < 2 ^ 40).
Proof.
  intros Ha. unfold IDString.
  destruct (fmt_x_prec_10_digits (address id) Ha) as (n & Hn & -> & Hlt & Hmin).
  rewrite hex_fixed_value, hex_fixed_length, hex_fixed_lower.
  split; [apply Z.mod_small; lia|]. split; [reflexivity|]. split; [lia|].
  split.
  - intros ->. change (16 ^ Z.of_nat 10) with (2 ^ 40) in Hlt. exact Hlt.
  - intros H40. destruct Hmin as [-> | Hmin]; [reflexivity|].
    destruct (Nat.eq_dec n 10%nat) as [-> | Hne]; [reflexivity|].
    assert (16 ^ 10 <= 16 ^ (Z.of_nat n - 1)) by (apply Z.pow_le_mono_r; lia).
    change (16 ^ 10) with (2 ^ 40) in *. lia.
Qed.

Lemma id_string_spells_address_witness :
  hex_value (IDString (mkZeroTierIdentity (2 ^ 40 + 5) [] None)) = 2 ^ 40 + 5 /\
  all_lower_hex (IDString (mkZeroTierIdentity (2 ^ 40 + 5) [] None)) = true /\
  (10 <= String.length (IDString (mkZeroTierIdentity (2 ^ 40 + 5) [] None)) <= 16)%nat /\
  (String.length (IDString (mkZeroTierIdentity (2 ^ 40 + 5) [] None)) = 10%nat
   <-> 2 ^ 40 + 5 < 2 ^ 40).
Proof.
  apply (id_string_spells_address (mkZeroTierIdentity (2 ^ 40 + 5) [] None)).
  cbn. lia.
Defined.

Lemma is_lower_hex_not_colon (c : ascii) (s : string) :
  all_lower_hex (String c s) = true -> c <> ":"%char.
Proof.
  cbn [all_lower_hex]. intros H ->. discriminate H.
Qed.

(** Two strings of hexadecimal digits followed by a colon split the same
    way. *)
Lemma hex_prefix_split (a a' t t' : string) :
  all_lower_hex a = true -> all_lower_hex a' = true ->
  a +:+ String ":" t = a' +:+ String ":" t' -> a = a' /\ t = t'.
Proof.
  revert a'. induction a as [|c a IH]; intros [|c' a'] Ha Ha' Heq.
  - rewrite !string_app_nil_l in Heq. injection Heq as ->. auto.
  - rewrite string_app_nil_l, string_app_cons in Heq. injection Heq as <- _.
    now apply is_lower_hex_not_colon in Ha'.
  - rewrite string_app_nil_l, string_app_cons in Heq. injection Heq as -> _.
    now apply is_lower_hex_not_colon in Ha.
  - rewrite !string_app_cons in Heq. injection Heq as -> Heq.
    cbn [all_lower_hex] in Ha, Ha'.
    apply andb_true_iff in Ha as [_ Ha]. apply andb_true_iff in Ha' as [_ Ha'].
    destruct (IH a' Ha Ha' Heq) as [-> ->]. auto.
Qed.

Lemma byte_to_Z_inj (b1 b2 : byte) : byte_to_Z b1 = byte_to_Z b2 -> b1 = b2.
Proof.
  unfold byte_to_Z. intros H. apply N2Z.inj in H.
  pose proof (Byte.of_to_N b1) as H1. pose proof (Byte.of_to_N b2) as H2.
  congruence.
Qed.

Lemma map_byte_to_Z_inj (l1 l2 : list byte) :
  map byte_to_Z l1 = map byte_to_Z l2 -> l1 = l2.
Proof.
  revert l2. induction l1 as [|b1 l1 IH]; intros [|b2 l2] H; try discriminate.
  - reflexivity.
  - cbn [map] in H. injection H as Hb Hl.
    apply byte_to_Z_inj in Hb as ->. now rewrite (IH l2 Hl).
Qed.

(** The public string determines the identity: two identities with 64-bit
    addresses and the same public string have the same address and the same
    public key. *)
Theorem public_string_injective (id1 id2 : ZeroTierIdentity) :
  0 <= address id1 < 2 ^ 64 -> 0 <= address id2 < 2 ^ 64 ->
  PublicKeyString id1 = PublicKeyString id2 ->
  address id1 = address id2 /\ publicKey id1 = publicKey id2.
Proof.
  intros H1 H2 Heq.
  destruct (id_string_spells_address_aux id1 H1) as (Hv1 & Hl1).
  destruct (id_string_spells_address_aux id2 H2) as (Hv2 & Hl2).
  unfold PublicKeyString in Heq. unfold IDString in *.
  change (":0:" +:+ fmt_x_bytes (publicKey id1))
    with (String ":" ("0:" +:+ fmt_x_bytes (publicKey id1))) in Heq.
  change (":0:" +:+ fmt_x_bytes (publicKey id2))
    with (String ":" ("0:" +:+ fmt_x_bytes (publicKey id2))) in Heq.
  destruct (hex_prefix_split _ _ _ _ Hl1 Hl2 Heq) as [Ha Hk].
  split; [congruence|].
  change ("0:" +:+ fmt_x_bytes (publicKey id1))
    with (String "0" (String ":" (fmt_x_bytes (publicKey id1)))) in Hk.
  change ("0:" +:+ fmt_x_bytes (publicKey id2))
    with (String "0" (String ":" (fmt_x_bytes (publicKey id2)))) in Hk.
  injection Hk as Hk.
  apply map_byte_to_Z_inj. rewrite <- !fmt_x_bytes_decode. now rewrite Hk.
Qed.

Lemma public_string_injective_witness :
  address Stub.example_identity = address Stub.example_identity /\
  publicKey Stub.example_identity = publicKey Stub.example_identity.
Proof.
  apply (public_string_injective Stub.example_identity Stub.example_identity).
  - cbn. lia.
  - cbn. lia.
  - reflexivity.
Defined.

(** The private string is empty exactly when no private key is held. *)
Theorem private_string_empty_iff (id : ZeroTierIdentity) :
  PrivateKeyString id = ""%string <-> privateKey id = None.
Proof.
  unfold PrivateKeyString. destruct (privateKey id) as [priv|]; split;
    try discriminate; try reflexivity.
  intros H. apply (f_equal String.length) in H.
  rewrite !string_length_app in H. cbn [String.length] in H. lia.
Qed.

(** ** Key generation and mining, in full *)

Section MiningExtras.

Variable Sum512 : list byte -> list byte.
Variable XORKeyStream : list byte -> list byte -> list byte -> list byte.
Variable ed25519_public : list byte -> list byte.
Variable curve25519_ScalarBaseMult : list byte -> list byte.

Hypothesis Sum512_length : forall d, length (Sum512 d) = 64%nat.
Hypothesis XORKeyStream_length :
  forall inp ctr key, length (XORKeyStream inp ctr key) = length inp.
Hypothesis ed25519_public_length :
  forall seed, length (ed25519_public seed) = 32%nat.
Hypothesis ScalarBaseMult_length :
  forall scalar, length (curve25519_ScalarBaseMult scalar) = 32%nat.

Lemma supplies32_spec (o : ReadOutcome) :
  supplies32 o = true -> o = Supplied (supplied_bytes o) /\ length (supplied_bytes o) = 32%nat.
Proof.
  destruct o as [bs|]; [|discriminate]. cbn. intros H. now apply Nat.eqb_eq in H.
Qed.

Lemma supplies32_false (o : ReadOutcome) (r : Reader) :
  supplies32 o = false -> io_ReadFull (o :: r) 32 = (None, r).
Proof.
  destruct o as [bs|]; [|reflexivity]. cbn [supplies32]. intros H.
  apply io_ReadFull_short. now apply Nat.eqb_neq.
Qed.

(** The outcome of [generateDualPair], read off its two reads. *)
Lemma generateDualPair_cases (r : Reader) :
  generateDualPair ed25519_public curve25519_ScalarBaseMult r =
    match r with
    | o1 :: o2 :: r' =>
        if supplies32 o2 then
          if supplies32 o1 then
            Ok (curve25519_ScalarBaseMult (supplied_bytes o2)
                  ++ ed25519_public (supplied_bytes o1),
                supplied_bytes o2 ++ supplied_bytes o1, r')
          else Panic (GoRuntimeError SliceBoundsOutOfRange)
        else Panic NotEnoughEntropy
    | _ => Panic NotEnoughEntropy
    end.
Proof.
  destruct r as [|o1 [|o2 r']].
  - reflexivity.
  - unfold generateDualPair, ed25519_GenerateKey, io_ReadFull.
    destruct o1 as [bs|]; [destruct (length bs =? 32)%nat|]; reflexivity.
  - destruct (supplies32 o2) eqn:E2.
    + apply supplies32_spec in E2 as [E2 L2]. rewrite E2.
      cbn [supplied_bytes].
      destruct (supplies32 o1) eqn:E1.
      * apply supplies32_spec in E1 as [E1 L1]. rewrite E1. cbn [supplied_bytes].
        now apply generateDualPair_ok.
      * unfold generateDualPair, ed25519_GenerateKey.
        rewrite (supplies32_false o1) by assumption. cbv beta iota zeta.
        rewrite io_ReadFull_supplied by assumption. cbv beta iota zeta.
        cbn [from_option fst snd].
        rewrite (copy_to_ok (zeros 64)
                   (curve25519_ScalarBaseMult (supplied_bytes o2)) 0 32)
          by (unfold zeros; rewrite ?length_replicate; lia).
        rewrite bind_Ok. reflexivity.
    + unfold generateDualPair, ed25519_GenerateKey.
      destruct (io_ReadFull (o1 :: o2 :: r') 32) as [[s1|] r1] eqn:E1;
        cbv beta iota zeta;
        assert (r1 = o2 :: r') as ->
          by (destruct o1 as [bs|]; unfold io_ReadFull in E1;
              [destruct (length bs =? 32)%nat|]; congruence);
        rewrite (supplies32_false o2) by assumption; reflexivity.
Qed.

Lemma hash_returns (pk : list byte) :
  exists dig,
    computeZeroTierIdentityMemoryHardHash Sum512 XORKeyStream pk = Ok dig /\
    length dig = 64%nat.
Proof.
  destruct (hash_run_any_fuel Sum512 XORKeyStream Sum512_length XORKeyStream_length
              0 pk) as (st & Hrun & (Hlen & _) & _).
  exists (s512 st). split; [|assumption].
  unfold computeZeroTierIdentityMemoryHardHash, memoryHardHash_fuel.
  now rewrite Hrun.
Qed.

Lemma index_digest (dig : list byte) (k : Z) :
  length dig = 64%nat -> 0 <= k < 64 ->
  index dig k = Ok (digest_byte dig (Z.to_nat k)).
Proof.
  intros Hlen Hk. unfold index, digest_byte.
  destruct (Z.leb_spec 0 k); [|lia].
  destruct (Z.ltb_spec k (Z.of_nat (length dig))); [|lia].
  cbn [andb].
  destruct (dig !! Z.to_nat k) eqn:E; [reflexivity|].
  apply lookup_ge_None in E. lia.
Qed.

(** One attempt of the mining loop on a reader that supplies both reads. *)
Lemma NewZeroTierIdentity_attempt (fuel : nat) (o1 o2 : ReadOutcome) (r : Reader) :
  supplies32 o1 = true -> supplies32 o2 = true ->
  exists dig,
    computeZeroTierIdentityMemoryHardHash Sum512 XORKeyStream
      (curve25519_ScalarBaseMult (supplied_bytes o2) ++ ed25519_public (supplied_bytes o1))
    = Ok dig /\
    length dig = 64%nat /\
    NewZeroTierIdentity Sum512 XORKeyStream ed25519_public curve25519_ScalarBaseMult
      (S fuel) (o1 :: o2 :: r)
    = if qualifies dig
      then Ok (mkZeroTierIdentity (digest_address dig)
                 (curve25519_ScalarBaseMult (supplied_bytes o2)
                    ++ ed25519_public (supplied_bytes o1))
                 (Some (supplied_bytes o2 ++ supplied_bytes o1)), r)
      else NewZeroTierIdentity Sum512 XORKeyStream ed25519_public
             curve25519_ScalarBaseMult fuel r.
Proof.
  intros E1 E2.
  destruct (hash_returns
              (curve25519_ScalarBaseMult (supplied_bytes o2)
                 ++ ed25519_public (supplied_bytes o1))) as (dig & Hhash & Hlen).
  exists dig. split; [exact Hhash|]. split; [exact Hlen|].
  cbn [NewZeroTierIdentity].
  rewrite generateDualPair_cases, E1, E2, bind_Ok. cbv beta iota.
  rewrite Hhash, bind_Ok.
  rewrite (index_digest dig 0), bind_Ok by (auto; lia).
  unfold qualifies, digest_address.
  change (Z.to_nat 0) with 0%nat.
  destruct (byte_to_Z (digest_byte dig 0) <? ztIdentityHashCashFirstByteLessThan);
    [|reflexivity].
  rewrite (index_digest dig 59), bind_Ok by (auto; lia).
  change (Z.to_nat 59) with 59%nat.
  destruct (negb (byte_to_Z (digest_byte dig 59) =? 255)); [|reflexivity].
  rewrite (index_digest dig 60), bind_Ok by (auto; lia).
  rewrite (index_digest dig 61), bind_Ok by (auto; lia).
  rewrite (index_digest dig 62), bind_Ok by (auto; lia).
  rewrite (index_digest dig 63), bind_Ok by (auto; lia).
  cbv zeta.
  change (Z.to_nat 60) with 60%nat. change (Z.to_nat 61) with 61%nat.
  change (Z.to_nat 62) with 62%nat. change (Z.to_nat 63) with 63%nat.
  cbn [andb].
  destruct (negb (address_of _ _ _ _ _ =? 0)); reflexivity.
Qed.

(** The loop on a reader whose next two reads do not both supply. *)
Lemma NewZeroTierIdentity_failed_read (fuel : nat) (r : Reader) :
  (forall o1 o2 r', r = o1 :: o2 :: r' -> supplies32 o1 && supplies32 o2 = false) ->
  exists p,
    (p = NotEnoughEntropy \/ p = GoRuntimeError SliceBoundsOutOfRange) /\
    generateDualPair ed25519_public curve25519_ScalarBaseMult r = Panic p /\
    NewZeroTierIdentity Sum512 XORKeyStream ed25519_public curve25519_ScalarBaseMult
      (S fuel) r = Panic p.
Proof.
  intros Hbad. cbn [NewZeroTierIdentity]. rewrite generateDualPair_cases.
  destruct r as [|o1 [|o2 r']];
    try (exists NotEnoughEntropy; split; [now left | split; reflexivity]).
  specialize (Hbad o1 o2 r' eq_refl).
  destruct (supplies32 o2);
    [|exists NotEnoughEntropy; split; [now left | split; reflexivity]].
  destruct (supplies32 o1); [discriminate|].
  exists (GoRuntimeError SliceBoundsOutOfRange).
  split; [now right | split; reflexivity].
Qed.

(** Each turn of the loop either makes an attempt on two supplied reads or
    panics on the reads, as the key generator does. *)
Lemma NewZeroTierIdentity_step (fuel : nat) (r : Reader) :
  (exists o1 o2 r1 dig,
      r = o1 :: o2 :: r1 /\ supplies32 o1 = true /\ supplies32 o2 = true /\
      computeZeroTierIdentityMemoryHardHash Sum512 XORKeyStream
        (curve25519_ScalarBaseMult (supplied_bytes o2)
           ++ ed25519_public (supplied_bytes o1)) = Ok dig /\
      length dig = 64%nat /\
      NewZeroTierIdentity Sum512 XORKeyStream ed25519_public curve25519_ScalarBaseMult
        (S fuel) r
      = if qualifies dig
        then Ok (mkZeroTierIdentity (digest_address dig)
                   (curve25519_ScalarBaseMult (supplied_bytes o2)
                      ++ ed25519_public (supplied_bytes o1))
                   (Some (supplied_bytes o2 ++ supplied_bytes o1)), r1)
        else NewZeroTierIdentity Sum512 XORKeyStream ed25519_public
               curve25519_ScalarBaseMult fuel r1)
  \/ (exists p,
        (p = NotEnoughEntropy \/ p = GoRuntimeError SliceBoundsOutOfRange) /\
        (forall o1 o2 r', r = o1 :: o2 :: r' -> supplies32 o1 && supplies32 o2 = false) /\
        generateDualPair ed25519_public curve25519_ScalarBaseMult r = Panic p /\
        NewZeroTierIdentity Sum512 XORKeyStream ed25519_public curve25519_ScalarBaseMult
          (S fuel) r = Panic p).
Proof.
  assert (Hfail :
    (forall o1 o2 r', r = o1 :: o2 :: r' -> supplies32 o1 && supplies32 o2 = false) ->
    exists p,
      (p = NotEnoughEntropy \/ p = GoRuntimeError SliceBoundsOutOfRange) /\
      (forall o1 o2 r', r = o1 :: o2 :: r' -> supplies32 o1 && supplies32 o2 = false) /\
      generateDualPair ed25519_public curve25519_ScalarBaseMult r = Panic p /\
      NewZeroTierIdentity Sum512 XORKeyStream ed25519_public curve25519_ScalarBaseMult
        (S fuel) r = Panic p).
  { intros Hbad.
    destruct (NewZeroTierIdentity_failed_read fuel r Hbad) as (p & Hp & Hg & Hn).
    exists p. auto. }
  destruct r as [|o1 [|o2 r1]].
  - right. apply Hfail. discriminate.
  - right. apply Hfail. discriminate.
  - destruct (supplies32 o1) eqn:E1; [destruct (supplies32 o2) eqn:E2|].
    + left. destruct (NewZeroTierIdentity_attempt fuel o1 o2 r1 E1 E2)
        as (dig & Hh & Hl & Hs).
      exists o1, o2, r1, dig. splits; auto.
    + right. apply Hfail.
      intros ? ? ? [= <- <- <-]. now rewrite E1, E2.
    + right. apply Hfail.
      intros ? ? ? [= <- <- <-]. now rewrite E1.
Qed.

(** What a returned identity says about the run that produced it. *)
Lemma NewZeroTierIdentity_Ok_inv
  (fuel : nat) (r : Reader) (id : ZeroTierIdentity) (r' : Reader) :
  NewZeroTierIdentity Sum512 XORKeyStream ed25519_public curve25519_ScalarBaseMult
    fuel r = Ok (id, r') ->
  exists consumed o1 o2 dig,
    r = consumed ++ o1 :: o2 :: r' /\
    (exists k, (k < fuel)%nat /\ length consumed = (2 * k)%nat) /\
    Forall (fun o => supplies32 o = true) consumed /\
    supplies32 o1 = true /\ supplies32 o2 = true /\
    computeZeroTierIdentityMemoryHardHash Sum512 XORKeyStream
      (curve25519_ScalarBaseMult (supplied_bytes o2)
         ++ ed25519_public (supplied_bytes o1)) = Ok dig /\
    length dig = 64%nat /\
    qualifies dig = true /\
    id = mkZeroTierIdentity (digest_address dig)
           (curve25519_ScalarBaseMult (supplied_bytes o2)
              ++ ed25519_public (supplied_bytes o1))
           (Some (supplied_bytes o2 ++ supplied_bytes o1)).
Proof.
  revert r. induction fuel as [|fuel IH]; intros r H; [discriminate|].
  destruct (NewZeroTierIdentity_step fuel r)
    as [(o1 & o2 & r1 & dig & -> & E1 & E2 & Hh & Hl & Hs) | (p & _ & _ & _ & Hp)];
    [|congruence].
  rewrite Hs in H. destruct (qualifies dig) eqn:Q.
  - injection H as <- <-. exists [], o1, o2, dig. splits; auto.
    exists 0%nat. split; [lia | reflexivity].
  - destruct (IH r1 H)
      as (consumed & p1 & p2 & dig' & -> & (k & Hk & Hc) & Hall & F1 & F2 & Hh'
          & Hl' & Q' & Hid).
    exists (o1 :: o2 :: consumed), p1, p2, dig'. splits; auto.
    exists (S k). split; [lia|]. cbn [length]. lia.
Qed.

(** A mined identity holds the keys of the last two reads the loop took:
    the public key is the Curve25519 key of the second of them followed by
    the Ed25519 key of the first, the private key is the second read
    followed by the first.  Every attempt before took two 32-byte reads. *)
Theorem mined_identity_keys
  (fuel : nat) (r : Reader) (id : ZeroTierIdentity) (r' : Reader) :
  NewZeroTierIdentity Sum512 XORKeyStream ed25519_public curve25519_ScalarBaseMult
    fuel r = Ok (id, r') ->
  exists consumed seed scalar,
    r = consumed ++ Supplied seed :: Supplied scalar :: r' /\
    Nat.Even (length consumed) /\ (length consumed < 2 * fuel)%nat /\
    Forall (fun o => supplies32 o = true) consumed /\
    length seed = 32%nat /\ length scalar = 32%nat /\
    publicKey id = curve25519_ScalarBaseMult scalar ++ ed25519_public seed /\
    privateKey id = Some (scalar ++ seed).
Proof.
  intros H.
  destruct (NewZeroTierIdentity_Ok_inv fuel r id r' H)
    as (consumed & o1 & o2 & dig & -> & (k & Hk & Hc) & Hall & E1 & E2 & _ & _ & _ & ->).
  apply supplies32_spec in E1 as [E1 L1]. apply supplies32_spec in E2 as [E2 L2].
  exists consumed, (supplied_bytes o1), (supplied_bytes o2).
  rewrite <- E1, <- E2. splits; auto.
  - exists k. lia.
  - lia.
Qed.

(** The strings of a mined identity have fixed widths: 10 characters for
    the address, 141 for the public string and 270 for the private one. *)
Theorem mined_identity_string_widths
  (fuel : nat) (r : Reader) (id : ZeroTierIdentity) (r' : Reader) :
  NewZeroTierIdentity Sum512 XORKeyStream ed25519_public curve25519_ScalarBaseMult
    fuel r = Ok (id, r') ->
  String.length (IDString id) = 10%nat /\
  String.length (PublicKeyString id) = 141%nat /\
  String.length (PrivateKeyString id) = 270%nat.
Proof.
  intros H.
  destruct (NewZeroTierIdentity_Ok_inv fuel r id r' H)
    as (consumed & o1 & o2 & dig & _ & _ & _ & E1 & E2 & _ & _ & _ & ->).
  apply supplies32_spec in E1 as [_ L1]. apply supplies32_spec in E2 as [_ L2].
  unfold IDString, PublicKeyString, PrivateKeyString.
  cbn [address publicKey privateKey]. unfold digest_address.
  destruct (address_of_be_uint (digest_byte dig 59) (digest_byte dig 60)
              (digest_byte dig 61) (digest_byte dig 62) (digest_byte dig 63))
    as [_ Hrange].
  rewrite (fmt_x_prec_10 _ Hrange).
  rewrite !string_length_app, hex_fixed_length, !fmt_x_bytes_length, !length_app.
  rewrite ScalarBaseMult_length, ed25519_public_length, L1, L2.
  cbn [String.length]. splits; reflexivity.
Qed.

(** A mined address is never zero and never in the reserved range whose
    first byte is 0xFF. *)
Theorem mined_address_not_reserved
  (fuel : nat) (r : Reader) (id : ZeroTierIdentity) (r' : Reader) :
  NewZeroTierIdentity Sum512 XORKeyStream ed25519_public curve25519_ScalarBaseMult
    fuel r = Ok (id, r') ->
  0 < address id < 0xff00000000.
Proof.
  intros H.
  destruct (NewZeroTierIdentity_Ok_inv fuel r id r' H)
    as (consumed & o1 & o2 & dig & _ & _ & _ & _ & _ & _ & _ & Q & ->).
  cbn [address]. unfold qualifies in Q.
  apply andb_true_iff in Q as [Q Qa]. apply andb_true_iff in Q as [_ Q59].
  apply negb_true_iff, Z.eqb_neq in Qa. apply negb_true_iff, Z.eqb_neq in Q59.
  unfold digest_address in *.
  destruct (address_of_be_uint (digest_byte dig 59) (digest_byte dig 60)
              (digest_byte dig 61) (digest_byte dig 62) (digest_byte dig 63))
    as [Hbe Hrange].
  rewrite Hbe in *. cbn [be_uint fold_left] in *.
  pose proof (byte_to_Z_range (digest_byte dig 59)).
  pose proof (byte_to_Z_range (digest_byte dig 60)).
  pose proof (byte_to_Z_range (digest_byte dig 61)).
  pose proof (byte_to_Z_range (digest_byte dig 62)).
  pose proof (byte_to_Z_range (digest_byte dig 63)).
  lia.
Qed.

(** The mining loop panics only on its reads.  When it panics, the reader
    splits into the reads of the attempts made before and the rest: every
    attempt before took two 32-byte reads, its candidate was hashed to a
    64-byte digest without a panic, and the digest was rejected; the next
    two reads of the rest do not both supply 32 bytes, and the panic is the
    one the key generator raises on the rest, the entropy panic or the
    slice-bounds panic of the key layout. *)
Theorem mining_panics_only_on_reads (fuel : nat) (r : Reader) (p : PanicValue) :
  NewZeroTierIdentity Sum512 XORKeyStream ed25519_public curve25519_ScalarBaseMult
    fuel r = Panic p ->
  exists consumed rest,
    r = consumed ++ rest /\
    (exists n, (n < fuel)%nat /\ length consumed = (2 * n)%nat) /\
    (forall (k : nat) o1 o2,
        consumed !! (2 * k)%nat = Some o1 ->
        consumed !! (2 * k + 1)%nat = Some o2 ->
        supplies32 o1 = true /\ supplies32 o2 = true /\
        exists dig,
          computeZeroTierIdentityMemoryHardHash Sum512 XORKeyStream
            (curve25519_ScalarBaseMult (supplied_bytes o2)
               ++ ed25519_public (supplied_bytes o1)) = Ok dig /\
          length dig = 64%nat /\
          qualifies dig = false) /\
    (forall o1 o2 r', rest = o1 :: o2 :: r' -> supplies32 o1 && supplies32 o2 = false) /\
    generateDualPair ed25519_public curve25519_ScalarBaseMult rest = Panic p /\
    (p = NotEnoughEntropy \/ p = GoRuntimeError SliceBoundsOutOfRange).
Proof.
  revert r. induction fuel as [|fuel IH]; intros r H; [discriminate|].
  destruct (NewZeroTierIdentity_step fuel r)
    as [(o1 & o2 & r1 & dig & -> & E1 & E2 & Hh & Hl & Hs)
       | (q & Hq & Hbad & Hgen & Hp)].
  - rewrite Hs in H. destruct (qualifies dig) eqn:Q; [discriminate|].
    destruct (IH r1 H)
      as (consumed & rest & -> & (n & Hn & Hc) & Hall & Hrest & Hgen & Hclass).
    exists (o1 :: o2 :: consumed), rest. splits; auto.
    + exists (S n). split; [lia|]. cbn [length]. lia.
    + intros [|k] p1 p2 H1 H2.
      * cbn in H1, H2. injection H1 as <-. injection H2 as <-.
        split; [assumption|]. split; [assumption|]. exists dig. auto.
      * replace (2 * S k)%nat with (S (S (2 * k))) in H1 by lia.
        replace (2 * S k + 1)%nat with (S (S (2 * k + 1))) in H2 by lia.
        cbn [lookup list_lookup] in H1, H2.
        exact (Hall k p1 p2 H1 H2).
  - assert (q = p) as -> by congruence.
    exists [], r. splits; auto.
    + exists 0%nat. split; [lia | reflexivity].
    + intros k p1 p2 H1. rewrite lookup_nil in H1. discriminate.
Qed.

(** After [n] attempts without a result the loop has taken exactly [2 n]
    reads, each of 32 bytes: on a reader with fewer reads the loop ends
    before, with an identity or a panic. *)
Theorem mining_attempts_take_two_reads (fuel : nat) (r : Reader) :
  NewZeroTierIdentity Sum512 XORKeyStream ed25519_public curve25519_ScalarBaseMult
    fuel r = OutOfFuel ->
  (2 * fuel <= length r)%nat /\
  Forall (fun o => supplies32 o = true) (take (2 * fuel) r).
Proof.
  revert r. induction fuel as [|fuel IH]; intros r H.
  - split; [lia|]. cbn. constructor.
  - destruct (NewZeroTierIdentity_step fuel r)
      as [(o1 & o2 & r1 & dig & -> & E1 & E2 & Hh & Hl & Hs) | (q & _ & _ & _ & Hp)];
      [|congruence].
    rewrite Hs in H. destruct (qualifies dig); [discriminate|].
    destruct (IH r1 H) as [Hlen Hall]. split; [cbn [length]; lia|].
    replace (2 * S fuel)%nat with (S (S (2 * fuel))) by lia.
    cbn [take]. repeat constructor; assumption.
Qed.

(** The generator raises the entropy panic exactly when the second read,
    the one for the Curve25519 scalar, does not supply 32 bytes; the first
    read has no part in it. *)
Theorem entropy_panic_iff_scalar_read_fails (r : Reader) :
  generateDualPair ed25519_public curve25519_ScalarBaseMult r = Panic NotEnoughEntropy
  <-> (forall o1 o2 r', r = o1 :: o2 :: r' -> supplies32 o2 = false).
Proof.
  rewrite generateDualPair_cases.
  destruct r as [|o1 [|o2 r1]].
  - split; [discriminate | reflexivity].
  - split; [discriminate | reflexivity].
  - destruct (supplies32 o2) eqn:E2.
    + split.
      * destruct (supplies32 o1); discriminate.
      * intros H. specialize (H o1 o2 r1 eq_refl). congruence.
    + split; [|reflexivity]. intros _ ? ? ? [= <- <- <-]. exact E2.
Qed.

End MiningExtras.

(** The same, on the example run of the mining loop. *)
Lemma mined_identity_keys_witness :
  exists consumed seed scalar,
    Stub.example_retry_reader = consumed ++ Supplied seed :: Supplied scalar :: [] /\
    Nat.Even (length consumed) /\ (length consumed < 2 * 2)%nat /\
    Forall (fun o => supplies32 o = true) consumed /\
    length seed = 32%nat /\ length scalar = 32%nat /\
    publicKey Stub.example_identity = Stub.ScalarBaseMult scalar ++ Stub.ed25519_public seed /\
    privateKey Stub.example_identity = Some (scalar ++ seed).
Proof.
  exact (mined_identity_keys
           Stub.Sum512 Stub.null_XORKeyStream Stub.ed25519_public Stub.ScalarBaseMult
           Stub_Sum512_length null_XORKeyStream_length
           Stub_ed25519_public_length Stub_ScalarBaseMult_length
           2 Stub.example_retry_reader Stub.example_identity [] example_mining_run).
Defined.

Lemma mined_identity_string_widths_witness :
  String.length (IDString Stub.example_identity) = 10%nat /\
  String.length (PublicKeyString Stub.example_identity) = 141%nat /\
  String.length (PrivateKeyString Stub.example_identity) = 270%nat.
Proof.
  exact (mined_identity_string_widths
           Stub.Sum512 Stub.null_XORKeyStream Stub.ed25519_public Stub.ScalarBaseMult
           Stub_Sum512_length null_XORKeyStream_length
           Stub_ed25519_public_length Stub_ScalarBaseMult_length
           2 Stub.example_retry_reader Stub.example_identity [] example_mining_run).
Defined.

Lemma mined_address_not_reserved_witness :
  0 < address Stub.example_identity < 0xff00000000.
Proof.
  exact (mined_address_not_reserved
           Stub.Sum512 Stub.null_XORKeyStream Stub.ed25519_public Stub.ScalarBaseMult
           Stub_Sum512_length null_XORKeyStream_length
           Stub_ed25519_public_length Stub_ScalarBaseMult_length
           2 Stub.example_retry_reader Stub.example_identity [] example_mining_run).
Defined.

(** A reader that runs dry after one rejected candidate. *)
Lemma example_dry_run :
  NewZeroTierIdentity Stub.Sum512 Stub.null_XORKeyStream Stub.ed25519_public
    Stub.ScalarBaseMult 2 [Supplied (zeros 32); Supplied (zeros 32); Supplied (zeros 32)]
  = Panic NotEnoughEntropy.
Proof.
  cbn [NewZeroTierIdentity].
  rewrite generateDualPair_ok
    by (first [apply Stub_ed25519_public_length
              | apply Stub_ScalarBaseMult_length | reflexivity]).
  rewrite bind_Ok. cbv beta iota.
  rewrite (null_hash Stub.Sum512 Stub_Sum512_length), bind_Ok.
  set (dig1 := Stub.Sum512 _).
  assert (Hd1 : index dig1 0 = Ok "224"%byte) by (vm_compute; reflexivity).
  rewrite Hd1, bind_Ok.
  change (byte_to_Z "224" <? ztIdentityHashCashFirstByteLessThan) with false.
  cbv iota. reflexivity.
Qed.

Lemma mining_panics_only_on_reads_witness :
  exists consumed rest,
    [Supplied (zeros 32); Supplied (zeros 32); Supplied (zeros 32)] = consumed ++ rest /\
    (exists n, (n < 2)%nat /\ length consumed = (2 * n)%nat) /\
    (forall (k : nat) o1 o2,
        consumed !! (2 * k)%nat = Some o1 ->
        consumed !! (2 * k + 1)%nat = Some o2 ->
        supplies32 o1 = true /\ supplies32 o2 = true /\
        exists dig,
          computeZeroTierIdentityMemoryHardHash Stub.Sum512 Stub.null_XORKeyStream
            (Stub.ScalarBaseMult (supplied_bytes o2)
               ++ Stub.ed25519_public (supplied_bytes o1)) = Ok dig /\
          length dig = 64%nat /\
          qualifies dig = false) /\
    (forall o1 o2 r', rest = o1 :: o2 :: r' -> supplies32 o1 && supplies32 o2 = false) /\
    generateDualPair Stub.ed25519_public Stub.ScalarBaseMult rest
      = Panic NotEnoughEntropy /\
    (NotEnoughEntropy = NotEnoughEntropy \/
     NotEnoughEntropy = GoRuntimeError SliceBoundsOutOfRange).
Proof.
  exact (mining_panics_only_on_reads
           Stub.Sum512 Stub.null_XORKeyStream Stub.ed25519_public Stub.ScalarBaseMult
           Stub_Sum512_length null_XORKeyStream_length
           Stub_ed25519_public_length Stub_ScalarBaseMult_length
           2 [Supplied (zeros 32); Supplied (zeros 32); Supplied (zeros 32)]
           NotEnoughEntropy example_dry_run).
Defined.

(** One rejected candidate, and no attempt left. *)
Lemma example_rejected_run :
  NewZeroTierIdentity Stub.Sum512 Stub.null_XORKeyStream Stub.ed25519_public
    Stub.ScalarBaseMult 1 [Supplied (zeros 32); Supplied (zeros 32); ReadFails]
  = OutOfFuel.
Proof.
  cbn [NewZeroTierIdentity].
  rewrite generateDualPair_ok
    by (first [apply Stub_ed25519_public_length
              | apply Stub_ScalarBaseMult_length | reflexivity]).
  rewrite bind_Ok. cbv beta iota.
  rewrite (null_hash Stub.Sum512 Stub_Sum512_length), bind_Ok.
  set (dig1 := Stub.Sum512 _).
  assert (Hd1 : index dig1 0 = Ok "224"%byte) by (vm_compute; reflexivity).
  rewrite Hd1, bind_Ok.
  change (byte_to_Z "224" <? ztIdentityHashCashFirstByteLessThan) with false.
  cbv iota. reflexivity.
Qed.

Lemma mining_attempts_take_two_reads_witness :
  (2 * 1 <= length [Supplied (zeros 32); Supplied (zeros 32); ReadFails])%nat /\
  Forall (fun o => supplies32 o = true)
    (take (2 * 1) [Supplied (zeros 32); Supplied (zeros 32); ReadFails]).
Proof.
  exact (mining_attempts_take_two_reads
           Stub.Sum512 Stub.null_XORKeyStream Stub.ed25519_public Stub.ScalarBaseMult
           Stub_Sum512_length null_XORKeyStream_length
           Stub_ed25519_public_length Stub_ScalarBaseMult_length
           1 [Supplied (zeros 32); Supplied (zeros 32); ReadFails]
           example_rejected_run).
Defined.

(** The private string determines the identity and its private key: two
    identities with 64-bit addresses that hold a private key and have the
    same private string agree in address, public key and private key. *)
Theorem private_string_injective
  (id1 id2 : ZeroTierIdentity) (priv1 priv2 : list byte) :
  0 <= address id1 < 2 ^ 64 -> 0 <= address id2 < 2 ^ 64 ->
  privateKey id1 = Some priv1 -> privateKey id2 = Some priv2 ->
  PrivateKeyString id1 = PrivateKeyString id2 ->
  address id1 = address id2 /\ publicKey id1 = publicKey id2 /\ priv1 = priv2.
Proof.
  intros H1 H2 P1 P2 Heq.
  destruct (id_string_spells_address_aux id1 H1) as (Hv1 & Hl1).
  destruct (id_string_spells_address_aux id2 H2) as (Hv2 & Hl2).
  unfold PrivateKeyString in Heq. rewrite P1, P2 in Heq. unfold IDString in *.
  rewrite ?string_app_assoc in Heq.
  change (":0:" +:+ (fmt_x_bytes (publicKey id1) +:+ (":" +:+ fmt_x_bytes priv1)))
    with (String ":" ("0:" +:+ (fmt_x_bytes (publicKey id1)
                                  +:+ (":" +:+ fmt_x_bytes priv1)))) in Heq.
  change (":0:" +:+ (fmt_x_bytes (publicKey id2) +:+ (":" +:+ fmt_x_bytes priv2)))
    with (String ":" ("0:" +:+ (fmt_x_bytes (publicKey id2)
                                  +:+ (":" +:+ fmt_x_bytes priv2)))) in Heq.
  destruct (hex_prefix_split _ _ _ _ Hl1 Hl2 Heq) as [Ha Hk].
  split; [congruence|].
  change ("0:" +:+ (fmt_x_bytes (publicKey id1) +:+ (":" +:+ fmt_x_bytes priv1)))
    with (String "0" (String ":" (fmt_x_bytes (publicKey id1)
                                    +:+ String ":" (fmt_x_bytes priv1)))) in Hk.
  change ("0:" +:+ (fmt_x_bytes (publicKey id2) +:+ (":" +:+ fmt_x_bytes priv2)))
    with (String "0" (String ":" (fmt_x_bytes (publicKey id2)
                                    +:+ String ":" (fmt_x_bytes priv2)))) in Hk.
  injection Hk as Hk.
  destruct (hex_prefix_split _ _ _ _ (fmt_x_bytes_lower _) (fmt_x_bytes_lower _) Hk)
    as [Hpub Hpriv].
  split; apply map_byte_to_Z_inj; rewrite <- !fmt_x_bytes_decode; congruence.
Qed.

Lemma private_string_injective_witness :
  address Stub.example_identity = address Stub.example_identity /\
  publicKey Stub.example_identity = publicKey Stub.example_identity /\
  Stub.example_scalar ++ Stub.example_seed = Stub.example_scalar ++ Stub.example_seed.
Proof.
  apply (private_string_injective Stub.example_identity Stub.example_identity
           (Stub.example_scalar ++ Stub.example_seed)
           (Stub.example_scalar ++ Stub.example_seed)).
  - cbn. lia.
  - cbn. lia.
  - reflexivity.
  - reflexivity.
  - reflexivity.
Defined.

Lemma entropy_panic_iff_scalar_read_fails_witness :
  generateDualPair Stub.ed25519_public Stub.ScalarBaseMult
    [Supplied (zeros 32); ReadFails] = Panic NotEnoughEntropy
  <-> (forall o1 o2 r',
          [Supplied (zeros 32); ReadFails] = o1 :: o2 :: r' -> supplies32 o2 = false).
Proof.
  exact (entropy_panic_iff_scalar_read_fails
           Stub.ed25519_public Stub.ScalarBaseMult
           Stub_ed25519_public_length Stub_ScalarBaseMult_length
           [Supplied (zeros 32); ReadFails]).
Defined.
